(** * LinkbotJS: the firmware update checker of [src/jsx/firmware.jsx]

    A shallow embedding of the firmware-version reconciliation logic:
    filename pairing, local version enumeration, latest-version
    resolution and the scheduling of update checks; and of the robot
    list that [src/jsx/storage.jsx] keeps in its database.

    JavaScript strings are modelled as [string], numbers that hold
    integers (timestamps, delays, bit sets, indices) as [Z], [null] and
    [undefined] as [None], and a thrown exception as [Throw]. *)

From Stdlib Require Import ZArith NArith List String Ascii Bool Lia.
From Stdlib Require Import DecimalString.
From Stdlib Require Import Permutation Sorted.
Import ListNotations.

Local Open Scope string_scope.
Local Open Scope Z_scope.

(* ================================================================== *)
(** ** JavaScript string primitives used by the module *)

Module JsString.

(** [s.lastIndexOf(c)] for a one-character needle: the scan keeps the
    index of the latest match seen so far, [-1] when there is none. *)
Fixpoint lastIndexOf_from (s : string) (c : ascii) (i acc : Z) : Z :=
  match s with
  | EmptyString => acc
  | String x s' => lastIndexOf_from s' c (i + 1) (if Ascii.eqb x c then i else acc)
  end.

Definition lastIndexOf (s : string) (c : ascii) : Z :=
  lastIndexOf_from s c 0 (-1).

Definition len (s : string) : Z := Z.of_nat (String.length s).

(** How [slice] reads one index: a negative one counts from the end,
    and both are clamped to [0 .. length]. *)
Definition relIndex (n k : Z) : Z :=
  if k <? 0 then Z.max (n + k) 0 else Z.min k n.

(** [s.slice(b, e)]; [e = None] is the one-argument form [s.slice(b)]. *)
Definition slice (s : string) (b : Z) (e : option Z) : string :=
  let from := relIndex (len s) b in
  let upto := match e with
              | None => len s
              | Some e => relIndex (len s) e
              end in
  substring (Z.to_nat from) (Z.to_nat (Z.max (upto - from) 0)) s.

(** [s.split(c)] for a one-character separator: never the empty array. *)
Fixpoint split (c : ascii) (s : string) : list string :=
  match s with
  | EmptyString => [EmptyString]
  | String x s' =>
      if Ascii.eqb x c then EmptyString :: split c s'
      else match split c s' with
           | [] => [String x EmptyString]
           | p :: ps => String x p :: ps
           end
  end.

(** Whether the character [c] occurs in [s]. *)
Fixpoint occurs (c : ascii) (s : string) : bool :=
  match s with
  | EmptyString => false
  | String x s' => Ascii.eqb x c || occurs c s'
  end.

(** The value of a non-empty string of decimal digits. *)
Definition digitValue (c : ascii) : option N :=
  let n := N_of_ascii c in
  if (48 <=? n)%N && (n <=? 57)%N then Some (n - 48)%N else None.

Fixpoint digits_from (s : string) (acc : N) : option N :=
  match s with
  | EmptyString => Some acc
  | String c s' =>
      match digitValue c with
      | Some d => digits_from s' (10 * acc + d)%N
      | None => None
      end
  end.

Definition digits (s : string) : option N :=
  match s with
  | EmptyString => None
  | _ => digits_from s 0
  end.

(** ['' + n] for a number holding an integer. *)
Definition ofZ (n : Z) : string := NilZero.string_of_int (Z.to_int n).
Definition ofN (n : N) : string := NilZero.string_of_uint (N.to_uint n).

End JsString.

(* ================================================================== *)
(** ** Exceptions *)

Inductive exn := TypeError | SyntaxError.

Inductive result (A : Type) : Type :=
| Ok (a : A)
| Throw (e : exn).
Arguments Ok {A} a.
Arguments Throw {A} e.

Definition rbind {A B} (r : result A) (k : A -> result B) : result B :=
  match r with
  | Ok a => k a
  | Throw e => Throw e
  end.

Declare Scope result_scope.
Delimit Scope result_scope with result.
Notation "x <- r ;; k" := (rbind r (fun x => k))
  (at level 61, r at next level, right associativity) : result_scope.
Local Open Scope result_scope.

(* ================================================================== *)
(** ** Filename pairing (firmware.jsx, lines 14-53) *)

Record SplitName := { stem : string; extension : option string }.

(** [splitFilename(a)]: split at the last dot, unless that dot is the
    first character or there is none. *)
Definition splitFilename (a : string) : SplitName :=
  let i := JsString.lastIndexOf a "."%char in
  if i >? 0
  then {| stem := JsString.slice a 0 (Some i);
          extension := Some (JsString.slice a i None) |}
  else {| stem := JsString.slice a 0 None; extension := None |}.

(** The string an [extension] contributes when the parts are glued
    back together: nothing for [null]. *)
Definition extensionText (e : option string) : string :=
  match e with
  | Some x => x
  | None => ""
  end.


(* ================================================================== *)
(** ** The roll-call object [fws] *)

Module JsObject.

(** An object made by [{}] whose own properties hold int32 numbers, in
    the order the properties were created. *)
Definition t := list (string * Z).

(** What [{}] inherits from [Object.prototype]. None of it is
    enumerable, and every value is a function but for [__proto__], an
    accessor that yields the prototype object. *)
Definition prototypeKeys : list string :=
  ["constructor"; "hasOwnProperty"; "isPrototypeOf"; "propertyIsEnumerable";
   "toLocaleString"; "toString"; "valueOf"; "__defineGetter__";
   "__defineSetter__"; "__lookupGetter__"; "__lookupSetter__"; "__proto__"].

Fixpoint getOwn (k : string) (o : t) : option Z :=
  match o with
  | [] => None
  | (k', v) :: o' => if String.eqb k k' then Some v else getOwn k o'
  end.

Definition hasOwn (k : string) (o : t) : bool :=
  match getOwn k o with
  | Some _ => true
  | None => false
  end.

(** [k in o]: own or inherited. *)
Definition has (k : string) (o : t) : bool :=
  hasOwn k o || existsb (String.eqb k) prototypeKeys.

(** [o[k] | 0]: an own number is itself; [undefined], an inherited
    function and the prototype object all convert to [NaN], hence [0]. *)
Definition getInt32 (k : string) (o : t) : Z :=
  match getOwn k o with
  | Some v => v
  | None => 0
  end.

Fixpoint setOwn (k : string) (v : Z) (o : t) : t :=
  match o with
  | [] => [(k, v)]
  | (k', v') :: o' =>
      if String.eqb k k' then (k', v) :: o' else (k', v') :: setOwn k v o'
  end.

(** [o[k] = v] for a number [v]: the [__proto__] setter ignores a value
    that is no object, so that key never becomes an own property. *)
Definition put (k : string) (v : Z) (o : t) : t :=
  if String.eqb k "__proto__" then o else setOwn k v o.

(** An array index is the canonical decimal form of an integer below
    [2^32 - 1]. *)
Definition arrayIndex (k : string) : option N :=
  match JsString.digits k with
  | Some n =>
      if String.eqb (JsString.ofN n) k && (n <=? 4294967294)%N
      then Some n else None
  | None => None
  end.

Fixpoint insertIndex (e : N * string) (l : list (N * string)) : list (N * string) :=
  match l with
  | [] => [e]
  | e' :: l' => if (fst e <=? fst e')%N then e :: l else e' :: insertIndex e l'
  end.

Definition indexKeys (ks : list string) : list (N * string) :=
  fold_right
    (fun k acc => match arrayIndex k with
                  | Some n => insertIndex (n, k) acc
                  | None => acc
                  end) [] ks.

Definition isNamed (k : string) : bool :=
  match arrayIndex k with
  | Some _ => false
  | None => true
  end.

(** The keys [for (k in o)] visits: array indices in ascending order,
    then the other keys in creation order. *)
Definition forInKeys (o : t) : list string :=
  map snd (indexKeys (map fst o)) ++ filter isNamed (map fst o).

(** [o.hasOwnProperty(k)]: once [hasOwnProperty] is an own property it
    is a number, and calling it throws. *)
Definition callHasOwnProperty (o : t) (k : string) : result bool :=
  if hasOwn "hasOwnProperty" o then Throw TypeError else Ok (hasOwn k o).

End JsObject.

(** [Number(e === s)] *)
Definition isExtension (e : option string) (s : string) : Z :=
  match e with
  | Some x => if String.eqb x s then 1 else 0
  | None => 0
  end.

(** The body of the [forEach] of [firmwareFileStems]. The guard
    [!file.stem in fws] negates the stem first: it asks whether the
    key ["false"] (["true"] for the empty stem) is in [fws]. *)
Definition rollCall (fws : JsObject.t) (file : SplitName) : JsObject.t :=
  let negated := if String.eqb (stem file) "" then "true" else "false" in
  let fws := if JsObject.has negated fws
             then JsObject.put (stem file) 0 fws else fws in
  let fws := JsObject.put (stem file)
               (Z.lor (JsObject.getInt32 (stem file) fws)
                      (isExtension (extension file) ".hex")) fws in
  JsObject.put (stem file)
    (Z.lor (JsObject.getInt32 (stem file) fws)
           (Z.shiftl (isExtension (extension file) ".eeprom") 1)) fws.

(** The body of the [for (var stem in fws)] loop. *)
Definition collectStem (fws : JsObject.t) (acc : result (list string))
    (k : string) : result (list string) :=
  stems <- acc ;;
  own <- JsObject.callHasOwnProperty fws k ;;
  Ok (if own && (JsObject.getInt32 k fws =? 3) then (stems ++ [k])%list else stems).

Definition firmwareFileStems (firmwareFiles : list string) : result (list string) :=
  let fws := fold_left rollCall (map splitFilename firmwareFiles) [] in
  fold_left (collectStem fws) (JsObject.forInKeys fws) (Ok []).

(** The pairing the comment above [firmwareFileStems] describes: some
    listed file splits into the stem and [.hex], and some into the stem
    and [.eeprom]. *)
Definition hasFile (files : list string) (s e : string) : Prop :=
  exists f, In f files /\ splitFilename f = {| stem := s; extension := Some e |}.

Definition completeStem (files : list string) (s : string) : Prop :=
  hasFile files s ".hex" /\ hasFile files s ".eeprom".

(** Whether one of the files seen has the stem [s] and the extension [e]. *)
Definition seen (files : list SplitName) (s e : string) : bool :=
  existsb (fun f => String.eqb (stem f) s && (isExtension (extension f) e =? 1)) files.

(** The bit set the comment in [firmwareFileStems] describes: bit zero
    for a [.hex] file of the stem, bit one for an [.eeprom] file. *)
Definition rollOf (files : list SplitName) (s : string) : Z :=
  Z.b2z (seen files s ".hex") + 2 * Z.b2z (seen files s ".eeprom").

(** The stems the roll call handles as its comment says. *)
Definition plainStem (s : string) : Prop :=
  s <> "false" /\ s <> "hasOwnProperty" /\ s <> "__proto__".

(** The roll-call object agrees with the files seen so far. *)
Definition rolled (files : list SplitName) (fws : JsObject.t) : Prop :=
  forall s, JsObject.getInt32 s fws = rollOf files s /\
            (JsObject.hasOwn s fws = true -> exists f, In f files /\ stem f = s).

(** A file the roll call handles as its comment says. *)
Definition plainFile (f : SplitName) : Prop :=
  plainStem (stem f) /\ (stem f = "" -> extension f = None).

(* ================================================================== *)
(** ** Versions *)

Module Version.

Record t := { major : N; minor : N; patch : N }.

(** Modelled from the spec: [version.jsx] is not among the sources.
    [fromString] reads ["v<major>.<minor>.<patch>"], or the same
    without the leading [v]: exactly three dot-separated non-negative
    integers. A string that does not parse, [null] and [undefined]
    give no version. *)
Definition fromString (s : option string) : option t :=
  match s with
  | None => None
  | Some s =>
      let body := match s with
                  | String "v" r => r
                  | _ => s
                  end in
      match map JsString.digits (JsString.split "."%char body) with
      | [Some a; Some b; Some c] => Some {| major := a; minor := b; patch := c |}
      | _ => None
      end
  end.

(** Modelled from the spec: [new Version(parts)], called on the
    dot-separated parts of a version string; the version those parts
    denote, and none when one of the first three is no integer. *)
Definition ofParts (parts : list string) : option t :=
  match map JsString.digits parts with
  | Some a :: Some b :: Some c :: _ => Some {| major := a; minor := b; patch := c |}
  | _ => None
  end.

(** Modelled from the spec: the total order, by major, then minor,
    then patch. *)
Definition compare (a b : t) : comparison :=
  match (major a ?= major b)%N with
  | Eq => match (minor a ?= minor b)%N with
          | Eq => (patch a ?= patch b)%N
          | c => c
          end
  | c => c
  end.

Definition leb (a b : t) : bool :=
  match compare a b with
  | Gt => false
  | _ => true
  end.

(** Modelled from the spec: equality of versions. The argument may be
    absent (a string that did not parse), which equals no version. *)
Definition eq (a : t) (b : option t) : bool :=
  match b with
  | Some b => match compare a b with
              | Eq => true
              | _ => false
              end
  | None => false
  end.

(** Modelled from the spec: the larger of two versions. *)
Definition max (a b : t) : t := if leb a b then b else a.

(** Modelled from the spec: the canonical form ["1.2.3"]. *)
Definition toString (v : t) : string :=
  JsString.ofN (major v) ++ "." ++ JsString.ofN (minor v) ++ "." ++ JsString.ofN (patch v).

End Version.

(* ================================================================== *)
(** ** Local version enumeration (firmware.jsx, lines 56-69) *)

(** [/^v/.test(s) ? s.slice(1) : null] *)
Definition dropV (s : string) : option string :=
  match s with
  | String "v" _ => Some (JsString.slice s 1 None)
  | _ => None
  end.

(** [.filter(Boolean)] on an array of objects, [null] and [undefined]. *)
Fixpoint filterBoolean {A} (l : list (option A)) : list A :=
  match l with
  | [] => []
  | Some a :: l' => a :: filterBoolean l'
  | None :: l' => filterBoolean l'
  end.

(** [localVersionList()], on what [listFirmwareFiles()] returns. *)
Definition localVersionList (files : list string) : result (list Version.t) :=
  stems <- firmwareFileStems files ;;
  Ok (filterBoolean (map Version.fromString (map dropV stems))).

Definition localVersionExists (files : list string) (v : option Version.t)
  : result bool :=
  vs <- localVersionList files ;;
  Ok (existsb (fun x => Version.eq x v) vs).

(** [parts.join(c)] *)
Fixpoint join (c : ascii) (parts : list string) : string :=
  match parts with
  | [] => ""
  | [x] => x
  | x :: rest => x ++ String c (join c rest)
  end.

(** [r] writes the version [v] as exactly three dot-separated
    non-negative integers, [major.minor.patch]. *)
Definition spells (r : string) (v : Version.t) : Prop :=
  exists a b c,
    r = join "."%char [a; b; c] /\
    JsString.digits a = Some (Version.major v) /\
    JsString.digits b = Some (Version.minor v) /\
    JsString.digits c = Some (Version.patch v).

(* ================================================================== *)
(** ** Latest-version resolution (firmware.jsx, lines 71-80) *)

(** [a.reduce(f)] without an initial value: a [TypeError] on the empty
    array. *)
Definition reduce {A} (f : A -> A -> A) (a : list A) : result A :=
  match a with
  | [] => Throw TypeError
  | x :: xs => Ok (fold_left f xs x)
  end.

Section Resolution.

(** [Version.max], of the absent [version.jsx]. *)
Variable vmax : Version.t -> Version.t -> Version.t.

(** [latestVersion()]; [lrfv] is what
    [config.get('latestRemoteFirmwareVersion')] returns. The result is
    [None] where the JavaScript returns [undefined]. *)
Definition latestVersionWith (files : list string) (lrfv : option string)
  : result (option Version.t) :=
  vs <- localVersionList files ;;
  lv <- reduce vmax vs ;;
  let lrfv := Version.fromString lrfv in
  found <- localVersionExists files lrfv ;;
  Ok (if found then lrfv else Some lv).

End Resolution.

Definition latestVersion : list string -> option string -> result (option Version.t) :=
  latestVersionWith Version.max.

(** [m] is the maximum of [vs] in the order of versions. *)
Definition isMaximum (m : Version.t) (vs : list Version.t) : Prop :=
  In m vs /\ forall x, In x vs -> Version.leb x m = true.

(* ================================================================== *)
(** ** The host: clock, configuration, bridge, timers and requests *)

Module Config.

(** Modelled from the spec: [config.jsx] is not among the sources. The
    store holds the two persisted keys; [get(key)] returns the value or
    [undefined], [set(key, value)] returns whether the write
    succeeded. *)
Record t := {
  latestRemoteFirmwareVersion : option string;
  nextCheck : option Z
}.

Definition empty : t :=
  {| latestRemoteFirmwareVersion := None; nextCheck := None |}.

End Config.

(** What [asyncBaroboBridge.linkbotLabsVersion()] returns when it
    returns an object. *)
Record LabsVersion := { labsMajor : N; labsMinor : N; labsPatch : N }.

(** One entry of the [firmware-md5sums] object of the metadata. *)
Record Md5Sums := { hex : option string; eeprom : option string }.

(** The metadata document as [JSON.parse] returns it; a key that the
    document lacks reads as [undefined]. *)
Record Metadata := {
  linkbotlabs_firmware : option (list (string * list string));
  firmware_md5sums : option (list (string * Md5Sums))
}.

(** The calls the module makes on its collaborators, in the order it
    makes them. *)
Inductive effect :=
| ConsoleLog (msg : string)
| ConsoleWarn (msg : string)
| ConfigSetLatestRemoteFirmwareVersion (value : option string) (ok : bool)
| ConfigSetNextCheck (value : Z) (ok : bool)
| SetTimeout (delay : Z)
| XhrSend (url : string)
| SaveFirmwareFile (url : string) (md5sum : option string)
| FirmwareUpdate (version : option Version.t) (hexFile eepromFile : string).

Record world := {
  clock : nat -> Z;          (* what the k-th [Date.now()] returns *)
  ticks : nat;               (* how many readings were taken *)
  setOk : nat -> bool;       (* whether the k-th [config.set] succeeds *)
  sets : nat;                (* how many writes were attempted *)
  firmwareFiles : list string;              (* [listFirmwareFiles()] *)
  linkbotLabsVersion : option LabsVersion;  (* [linkbotLabsVersion()] *)
  locationHost : string;                    (* [location.host] *)
  config : Config.t;
  timers : list Z;           (* armed [setTimeout(checkForFirmwareUpdate, _)] *)
  inFlight : nat;            (* requests sent and not yet answered *)
  trace : list effect
}.

(** Code that runs against the host and may throw; what it did before
    throwing stays done. *)
Definition M (A : Type) : Type := world -> result A * world.

Definition ret {A} (a : A) : M A := fun w => (Ok a, w).

Definition raise {A} (e : exn) : M A := fun w => (Throw e, w).

Definition bind {A B} (m : M A) (k : A -> M B) : M B :=
  fun w => match m w with
           | (Ok a, w') => k a w'
           | (Throw e, w') => (Throw e, w')
           end.

Definition lift {A} (r : result A) : M A := fun w => (r, w).

Declare Scope js_scope.
Delimit Scope js_scope with js.
Notation "x <- m ;; k" := (bind m (fun x => k))
  (at level 61, m at next level, right associativity) : js_scope.
Notation "m ;; k" := (bind m (fun _ => k))
  (at level 61, right associativity) : js_scope.
Local Open Scope js_scope.

Definition emit (e : effect) (w : world) : world :=
  {| clock := clock w; ticks := ticks w; setOk := setOk w; sets := sets w;
     firmwareFiles := firmwareFiles w; linkbotLabsVersion := linkbotLabsVersion w;
     locationHost := locationHost w; config := config w; timers := timers w;
     inFlight := inFlight w; trace := trace w ++ [e] |}.

Definition console_log (msg : string) : M unit :=
  fun w => (Ok tt, emit (ConsoleLog msg) w).

Definition console_warn (msg : string) : M unit :=
  fun w => (Ok tt, emit (ConsoleWarn msg) w).

(** [Date.now()] *)
Definition Date_now : M Z :=
  fun w => (Ok (clock w (ticks w)),
            {| clock := clock w; ticks := S (ticks w); setOk := setOk w;
               sets := sets w; firmwareFiles := firmwareFiles w;
               linkbotLabsVersion := linkbotLabsVersion w;
               locationHost := locationHost w; config := config w;
               timers := timers w; inFlight := inFlight w; trace := trace w |}).

(** Modelled from the spec: a write that succeeds replaces the value of
    the key and returns [true]; one that fails returns [false] and
    leaves the store as it was. *)
Definition writeConfig (c : Config.t) (e : bool -> effect) : M bool :=
  fun w => let ok := setOk w (sets w) in
           (Ok ok,
            emit (e ok)
              {| clock := clock w; ticks := ticks w; setOk := setOk w;
                 sets := S (sets w); firmwareFiles := firmwareFiles w;
                 linkbotLabsVersion := linkbotLabsVersion w;
                 locationHost := locationHost w;
                 config := if ok then c else config w;
                 timers := timers w; inFlight := inFlight w; trace := trace w |}).

(** [config.set('nextCheck', v)] *)
Definition config_set_nextCheck (v : Z) : M bool :=
  fun w => writeConfig
             {| Config.latestRemoteFirmwareVersion :=
                  Config.latestRemoteFirmwareVersion (config w);
                Config.nextCheck := Some v |}
             (ConfigSetNextCheck v) w.

(** [config.set('latestRemoteFirmwareVersion', v)] *)
Definition config_set_latestRemoteFirmwareVersion (v : option string) : M bool :=
  fun w => writeConfig
             {| Config.latestRemoteFirmwareVersion := v;
                Config.nextCheck := Config.nextCheck (config w) |}
             (ConfigSetLatestRemoteFirmwareVersion v) w.

(** [config.get(key)] *)
Definition config_get {A} (key : Config.t -> A) : M A :=
  fun w => (Ok (key (config w)), w).

(** [setTimeout(checkForFirmwareUpdate, delay)] *)
Definition setTimeout (delay : Z) : M unit :=
  fun w => (Ok tt,
            emit (SetTimeout delay)
              {| clock := clock w; ticks := ticks w; setOk := setOk w;
                 sets := sets w; firmwareFiles := firmwareFiles w;
                 linkbotLabsVersion := linkbotLabsVersion w;
                 locationHost := locationHost w; config := config w;
                 timers := timers w ++ [delay]; inFlight := inFlight w;
                 trace := trace w |}).

(** [request.open('GET', url); request.send()] with both listeners on. *)
Definition xhrSend (url : string) : M unit :=
  fun w => (Ok tt,
            emit (XhrSend url)
              {| clock := clock w; ticks := ticks w; setOk := setOk w;
                 sets := sets w; firmwareFiles := firmwareFiles w;
                 linkbotLabsVersion := linkbotLabsVersion w;
                 locationHost := locationHost w; config := config w;
                 timers := timers w; inFlight := S (inFlight w);
                 trace := trace w |}).

Definition saveFirmwareFile (url : string) (md5sum : option string) : M unit :=
  fun w => (Ok tt, emit (SaveFirmwareFile url md5sum) w).

Definition firmwareUpdate (v : option Version.t) (hexFile eepromFile : string) : M unit :=
  fun w => (Ok tt, emit (FirmwareUpdate v hexFile eepromFile) w).

Definition listFirmwareFiles : M (list string) :=
  fun w => (Ok (firmwareFiles w), w).

(* ================================================================== *)
(** ** Update trigger (firmware.jsx, lines 82-87) *)

(** ['' + x] for a value that may be [undefined]. *)
Definition text (x : option string) : string :=
  match x with
  | Some s => s
  | None => "undefined"
  end.

Definition startUpdater : M unit :=
  files <- listFirmwareFiles ;;
  lrfv <- config_get Config.latestRemoteFirmwareVersion ;;
  version <- lift (latestVersion files lrfv) ;;
  let shown := text (option_map Version.toString version) in
  let hexFile := "v" ++ shown ++ ".hex" in
  let eepromFile := "v" ++ shown ++ ".eeprom" in
  firmwareUpdate version hexFile eepromFile.

(* ================================================================== *)
(** ** Update-check scheduling (firmware.jsx, lines 89-152) *)

Definition CHECK_INTERVAL : Z := 60000.

Definition scheduleFirmwareUpdateCheck (delay : Z) : M unit :=
  console_log ("Scheduling firmware check in " ++ JsString.ofZ delay ++ "ms") ;;
  now <- Date_now ;;
  ok <- config_set_nextCheck (now + delay) ;;
  (if ok then ret tt
   else console_warn "Unable to set nextCheck in configuration") ;;
  setTimeout delay.

Definition checkForFirmwareUpdate : M unit :=
  xhrSend "/firmware/metadata.json".

Definition errorResponseHandler : M unit :=
  console_warn "Error occurred attempting to download the firmware." ;;
  scheduleFirmwareUpdateCheck 10000.

(** [o[k]] on an object read from JSON. *)
Fixpoint lookup {A} (k : string) (o : list (string * A)) : option A :=
  match o with
  | [] => None
  | (k', v) :: o' => if String.eqb k k' then Some v else lookup k o'
  end.

(** [x[k]] where [x] may be [undefined]: reading a property of
    [undefined] throws. *)
Definition ofDefined {A} (x : option A) : M A :=
  match x with
  | Some a => ret a
  | None => raise TypeError
  end.

(** [json['firmware-md5sums'][name]]: an own entry, or what the object
    inherits under that name, which has neither a [hex] nor an [eeprom]
    property. *)
Definition md5Entry (json : Metadata) (name : string) : M Md5Sums :=
  sums <- ofDefined (firmware_md5sums json) ;;
  match lookup name sums with
  | Some e => ret e
  | None =>
      if existsb (String.eqb name) JsObject.prototypeKeys
      then ret {| hex := None; eeprom := None |}
      else raise TypeError
  end.

(** The [load] listener; [body] is what [JSON.parse(this.responseText)]
    returns, [None] when the text is no JSON and the call throws. *)
Definition responseHandler (body : option Metadata) : M unit :=
  json <- match body with
          | Some json => ret json
          | None => raise SyntaxError
          end ;;
  version <- (fun w => (Ok (linkbotLabsVersion w), w)) ;;
  match version with
  | None => ret tt
  | Some version =>
      table <- ofDefined (linkbotlabs_firmware json) ;;
      firmwareArray <- ofDefined
        (lookup (JsString.ofN (labsMajor version) ++ "." ++
                 JsString.ofN (labsMinor version) ++ "." ++
                 JsString.ofN (labsPatch version)) table) ;;
      let first := hd_error firmwareArray in
      ok <- config_set_latestRemoteFirmwareVersion first ;;
      (if ok then ret tt
       else console_warn "Unable to set latestRemoteFirmwareVersion in config") ;;
      console_log ("Firmware: " ++ text first) ;;
      e <- md5Entry json (text first) ;;
      console_log ("Hex MD5: " ++ text (hex e)) ;;
      e <- md5Entry json (text first) ;;
      console_log ("Eeprom MD5: " ++ text (eeprom e)) ;;
      name <- ofDefined first ;;
      let v := Version.ofParts (JsString.split "."%char name) in
      files <- listFirmwareFiles ;;
      stocked <- lift (localVersionExists files v) ;;
      (if stocked then ret tt
       else
         host <- (fun w => (Ok (locationHost w), w)) ;;
         e <- md5Entry json name ;;
         saveFirmwareFile ("http://" ++ host ++ "/firmware/v" ++ name ++ ".hex") (hex e) ;;
         host <- (fun w => (Ok (locationHost w), w)) ;;
         e <- md5Entry json name ;;
         saveFirmwareFile ("http://" ++ host ++ "/firmware/v" ++ name ++ ".eeprom") (eeprom e)) ;;
      scheduleFirmwareUpdateCheck CHECK_INTERVAL
  end.

(** Clamp [x] to the range [a <= x <= b]. *)
Definition clamp (x a b : Z) : Z := Z.min (Z.max x a) b.

(** The module-level [delay] (lines 144-151). *)
Definition initialDelay : M Z :=
  nextCheck <- config_get Config.nextCheck ;;
  nextCheck <- match nextCheck with
               | None => Date_now
               | Some t => ret t
               end ;;
  now <- Date_now ;;
  ret (clamp (nextCheck - now) 0 CHECK_INTERVAL).

(** What loading the module runs (lines 144-152). *)
Definition main : M unit :=
  delay <- initialDelay ;;
  scheduleFirmwareUpdateCheck delay.

(** *** The event loop *)

Inductive event :=
| TimerFired                                           (* the oldest armed timer *)
| Loaded (status : Z) (body : option Metadata)         (* [load]: a response arrived *)
| Failed.                                              (* [error]: the request failed *)

Definition disarm (w : world) : world :=
  {| clock := clock w; ticks := ticks w; setOk := setOk w; sets := sets w;
     firmwareFiles := firmwareFiles w; linkbotLabsVersion := linkbotLabsVersion w;
     locationHost := locationHost w; config := config w; timers := tl (timers w);
     inFlight := inFlight w; trace := trace w |}.

Definition answered (w : world) : world :=
  {| clock := clock w; ticks := ticks w; setOk := setOk w; sets := sets w;
     firmwareFiles := firmwareFiles w; linkbotLabsVersion := linkbotLabsVersion w;
     locationHost := locationHost w; config := config w; timers := timers w;
     inFlight := pred (inFlight w); trace := trace w |}.

(** One turn of the event loop; [None] when the event cannot happen.
    An exception that escapes a listener ends that listener only. *)
Definition step (e : event) (w : world) : option world :=
  match e with
  | TimerFired =>
      match timers w with
      | [] => None
      | _ :: _ => Some (snd (checkForFirmwareUpdate (disarm w)))
      end
  | Loaded _ body =>
      match inFlight w with
      | O => None
      | S _ => Some (snd (responseHandler body (answered w)))
      end
  | Failed =>
      match inFlight w with
      | O => None
      | S _ => Some (snd (errorResponseHandler (answered w)))
      end
  end.

Fixpoint run (es : list event) (w : world) : option world :=
  match es with
  | [] => Some w
  | e :: es' =>
      match step e w with
      | Some w' => run es' w'
      | None => None
      end
  end.

(** No timer is armed and no request is in flight: no further check
    will ever happen. *)
Definition stalled (w : world) : Prop := timers w = [] /\ inFlight w = O.

(** A host at page load. *)
Definition boot (now : Z) (c : Config.t) (files : list string)
    (v : option LabsVersion) : world :=
  {| clock := fun k => now + Z.of_nat k; ticks := O;
     setOk := fun _ => true; sets := O;
     firmwareFiles := files; linkbotLabsVersion := v;
     locationHost := "localhost"; config := c; timers := []; inFlight := O;
     trace := [] |}.

(** Code that neither arms a timer nor sends a request. *)
Definition quiet {A} (m : M A) : Prop :=
  forall w, timers (snd (m w)) = timers w /\ inFlight (snd (m w)) = inFlight w.

(** Code that arms one timer of [d] ms when it returns, and none when
    it throws. *)
Definition armsOnReturn (d : Z) (m : M unit) : Prop :=
  forall w,
    inFlight (snd (m w)) = inFlight w /\
    ((fst (m w) = Ok tt /\ timers (snd (m w)) = (timers w ++ [d])%list) \/
     (exists e, fst (m w) = Throw e) /\ timers (snd (m w)) = timers w).

(** At most one check is pending: one armed timer or one request. *)
Definition calm (w : world) : Prop := (List.length (timers w) + inFlight w <= 1)%nat.

(** The same host, but with a configuration that refuses every write. *)
Definition refusingWrites (w : world) : world :=
  {| clock := clock w; ticks := ticks w; setOk := fun _ => false; sets := sets w;
     firmwareFiles := firmwareFiles w; linkbotLabsVersion := linkbotLabsVersion w;
     locationHost := locationHost w; config := config w; timers := timers w;
     inFlight := inFlight w; trace := trace w |}.

(** Versions used in the examples. *)
Definition v100 : Version.t :=
  {| Version.major := 1; Version.minor := 0; Version.patch := 0 |}.
Definition v200 : Version.t :=
  {| Version.major := 2; Version.minor := 0; Version.patch := 0 |}.
Definition v123 : Version.t :=
  {| Version.major := 1; Version.minor := 2; Version.patch := 3 |}.

(** A running application 1.2.3, and a metadata document that
    recommends firmware 4.4.6 for it. *)
Definition labs123 : LabsVersion := {| labsMajor := 1; labsMinor := 2; labsPatch := 3 |}.
Definition labs999 : LabsVersion := {| labsMajor := 9; labsMinor := 9; labsPatch := 9 |}.

Definition metadata446 : Metadata :=
  {| linkbotlabs_firmware := Some [("1.2.3", ["4.4.6"; "4.4.5"])];
     firmware_md5sums :=
       Some [("4.4.6", {| hex := Some "0f"; eeprom := Some "a7" |})] |}.

(** The page just loaded, with firmware 4.4.6 in stock and an empty
    configuration: [main] has armed the first timer. *)
Definition pageLoaded (v : option LabsVersion) : world :=
  snd (main (boot 0 Config.empty ["v4.4.6.eeprom"; "v4.4.6.hex"] v)).

(** The roll-call object after the first loop of [firmwareFileStems]. *)
Definition rollCalled (files : list string) : JsObject.t :=
  fold_left rollCall (map splitFilename files) [].

(** Every entry of the roll call is a bit set, and a bit is set only
    for a file that was seen. *)
Definition within (files : list SplitName) (fws : JsObject.t) : Prop :=
  forall s, exists h e : bool,
    JsObject.getInt32 s fws = Z.b2z h + 2 * Z.b2z e /\
    (h = true -> seen files s ".hex" = true) /\
    (e = true -> seen files s ".eeprom" = true).

(** The downloads requested so far. *)
Definition isSave (e : effect) : bool :=
  match e with
  | SaveFirmwareFile _ _ => true
  | _ => false
  end.

Definition downloads (w : world) : list effect := filter isSave (trace w).

(** The key under which the metadata lists the firmware of a running
    application (line 93). *)
Definition labsKey (v : LabsVersion) : string :=
  JsString.ofN (labsMajor v) ++ "." ++ JsString.ofN (labsMinor v) ++ "." ++
  JsString.ofN (labsPatch v).

(** Every armed timer is at most a minute long and never negative. *)
Definition prompt (w : world) : Prop :=
  Forall (fun d => 0 <= d <= 60000) (timers w).


(** A metadata document that recommends firmware 4.4.6 but carries no
    checksums. *)
Definition metadataNoSums : Metadata :=
  {| linkbotlabs_firmware := Some [("1.2.3", ["4.4.6"])];
     firmware_md5sums := None |}.

(** What [listFirmwareFiles()] of the stand-in bridge returns, which
    the module runs against outside the Barobo browser. *)
Definition mockFirmwareFiles : list string := ["v4.4.6.eeprom"; "v4.4.6.hex"].

Definition v446 : Version.t :=
  {| Version.major := 4; Version.minor := 4; Version.patch := 6 |}.

(* ================================================================== *)
(** ** The robot list (storage.jsx) *)

(** The module as it is when [openDatabase] succeeded. Each exported
    function runs one transaction; transactions run one after another,
    so a function is modelled by what its transaction makes of the
    table and by what it hands to its callback. A statement fails only
    where a constraint of the table refuses it, or where the table has
    no id left to give out. *)
Module Storage.

(** A row of the table [robots]:
    [id INTEGER PRIMARY KEY AUTOINCREMENT, name TEXT unique not null,
     status INTEGER not null, rorder INTEGER not null]. *)
Record Robot := { id : Z; name : string; status : Z; rorder : Z }.

(** The database: the rows in table order, and the largest id the
    table ever gave out, which [AUTOINCREMENT] keeps. *)
Record Db := { robots : list Robot; lastId : Z }.

(** What a call hands to its [callback]. *)
Inductive reply :=
| Done (ok : bool)              (* [callback(true)], [callback(false, error)] *)
| Updated                       (* [callback(true, results)] of one [UPDATE] *)
| Robots (all : list Robot).    (* [callback(allRobots)] *)

(** [if (callback) callback(...)] *)
Definition call (callback : bool) (r : list reply) : list reply :=
  if callback then r else [].

Definition setRorder (v : Z) (r : Robot) : Robot :=
  {| id := id r; name := name r; status := status r; rorder := v |}.

(** *** The statements the module executes *)

(** [ORDER BY rorder]: rows of equal [rorder] are left in table order. *)
Fixpoint insertByRorder (r : Robot) (l : list Robot) : list Robot :=
  match l with
  | [] => [r]
  | x :: l' => if rorder r <=? rorder x then r :: l else x :: insertByRorder r l'
  end.

Fixpoint orderByRorder (t : list Robot) : list Robot :=
  match t with
  | [] => []
  | r :: t' => insertByRorder r (orderByRorder t')
  end.

(** [UPDATE robots SET rorder = ? WHERE id = ?] *)
Definition sqlUpdate (t : list Robot) (u : Z * Z) : list Robot :=
  map (fun r => if id r =? snd u then setRorder (fst u) r else r) t.

(** [SELECT * from robots WHERE rorder BETWEEN ? and ? ORDER BY rorder] *)
Definition sqlBetween (a b : Z) (t : list Robot) : list Robot :=
  orderByRorder (filter (fun r => (a <=? rorder r) && (rorder r <=? b)) t).

(** [DELETE FROM robots WHERE name = ?] *)
Definition sqlDelete (n : string) (t : list Robot) : list Robot :=
  filter (fun r => negb (String.eqb (name r) n)) t.

(** The largest id a row can have, [2^63 - 1]. *)
Definition maxRowid : Z := 9223372036854775807.

(** [INSERT INTO robots (name, status, rorder) values (?,?,?)]: fails
    on a name the table already has, and fails once the largest id the
    table has or ever had is [maxRowid], as [AUTOINCREMENT] gives no id
    out twice; otherwise the new id is one more than that largest
    id. *)
Definition sqlInsert (n : string) (s o : Z) (db : Db) : option Db :=
  let m := fold_right Z.max (lastId db) (map id (robots db)) in
  if existsb (fun r => String.eqb (name r) n) (robots db) then None
  else if maxRowid <=? m then None
  else
    let i := m + 1 in
    Some {| robots := robots db ++ [{| id := i; name := n; status := s; rorder := o |}];
            lastId := i |}.

(** *** The exported functions, each one transaction *)

Definition remove (n : string) (callback : bool) (db : Db) : Db * list reply :=
  ({| robots := sqlDelete n (robots db); lastId := lastId db |},
   call callback [Done true]).

Definition add (n : string) (s : Z) (callback : bool) (db : Db) : Db * list reply :=
  let c := Z.of_nat (List.length (robots db)) in
  match sqlInsert n s c db with
  | Some db' => (db', call callback [Done true])
  | None => (db, call callback [Done false])
  end.

Definition getAll (callback : bool) (db : Db) : Db * list reply :=
  (db, call callback [Robots (orderByRorder (robots db))]).



Definition changePosition (currentPosition newPosition : Z) (callback : bool)
    (db : Db) : Db * list reply :=
  if currentPosition =? newPosition then (db, [])
  else
    let start := if currentPosition >? newPosition then newPosition else currentPosition in
    let end_ := if currentPosition >? newPosition then currentPosition else newPosition in
    let rows := sqlBetween start end_ (robots db) in
    let _modifier := if currentPosition >? newPosition then 1 else -1 in
    let updates :=
      map (fun row =>
             let setorder := rorder row + _modifier in
             let setid := id row in
             let setorder := if rorder row =? currentPosition
                             then newPosition else setorder in
             (setorder, setid)) rows in
    ({| robots := fold_left sqlUpdate updates (robots db); lastId := lastId db |},
     call callback (Done true :: map (fun _ => Updated) updates)).

(** *** What the display order should be *)

(** The positions are exactly [0 .. n-1], once each, and the ids are
    distinct. *)
Definition ordered (db : Db) : Prop :=
  NoDup (map id (robots db)) /\
  NoDup (map rorder (robots db)) /\
  forall r, In r (robots db) -> 0 <= rorder r < Z.of_nat (List.length (robots db)).







(** Example tables: three robots in order, and three with gaps. *)
Definition threeRobots : Db :=
  {| robots := [{| id := 1; name := "a"; status := 0; rorder := 0 |};
                {| id := 2; name := "b"; status := 0; rorder := 1 |};
                {| id := 3; name := "c"; status := 0; rorder := 2 |}];
     lastId := 3 |}.


End Storage.


(* ================================================================== *)
(** ** Properties of the string primitives *)

Lemma lastIndexOf_from_range s c i acc :
  -1 <= acc < i -> 0 <= i ->
  -1 <= JsString.lastIndexOf_from s c i acc < i + JsString.len s.
Proof.
  revert i acc. induction s as [|x s IH]; intros i acc Hacc Hi; cbn [JsString.lastIndexOf_from].
  - unfold JsString.len; cbn. lia.
  - specialize (IH (i + 1) (if Ascii.eqb x c then i else acc)).
    unfold JsString.len in *. cbn [String.length].
    destruct (Ascii.eqb x c); lia.
Qed.

Lemma lastIndexOf_range s c :
  -1 <= JsString.lastIndexOf s c < JsString.len s.
Proof.
  unfold JsString.lastIndexOf.
  pose proof (lastIndexOf_from_range s c 0 (-1)). lia.
Qed.

Lemma lastIndexOf_from_absent s c i acc :
  JsString.occurs c s = false -> JsString.lastIndexOf_from s c i acc = acc.
Proof.
  revert i acc. induction s as [|x s IH]; intros i acc H; cbn in *; [reflexivity|].
  apply orb_false_iff in H as [Hx Hs]. rewrite Hx. now apply IH.
Qed.

Lemma substring_all s : substring 0 (String.length s) s = s.
Proof. induction s; cbn; congruence. Qed.

Lemma substring_split (n : nat) s :
  (n <= String.length s)%nat ->
  (substring 0 n s ++ substring n (String.length s - n) s)%string = s.
Proof.
  revert s. induction n as [|n IH]; intros s Hn.
  - cbn [substring]. rewrite Nat.sub_0_r.
    destruct s; cbn; [reflexivity|]. now rewrite substring_all.
  - destruct s as [|x s]; cbn in Hn; [lia|].
    cbn. f_equal. apply IH. lia.
Qed.

Lemma slice_whole s : JsString.slice s 0 None = s.
Proof.
  unfold JsString.slice, JsString.relIndex, JsString.len. cbn.
  replace (Z.min 0 (Z.of_nat (String.length s))) with 0 by lia.
  rewrite Z.sub_0_r, Z.max_l by lia. rewrite Nat2Z.id. cbn.
  apply substring_all.
Qed.

Lemma slice_prefix_suffix s i :
  0 <= i <= JsString.len s ->
  (JsString.slice s 0 (Some i) ++ JsString.slice s i None)%string = s.
Proof.
  intros Hi. unfold JsString.slice, JsString.relIndex, JsString.len in *.
  cbn [Z.ltb Z.compare].
  replace (i <? 0) with false by (symmetry; apply Z.ltb_ge; lia).
  replace (Z.min 0 (Z.of_nat (String.length s))) with 0 by lia.
  rewrite (Z.min_l i) by lia.
  rewrite Z.sub_0_r, (Z.max_l i) by lia.
  rewrite (Z.max_l (_ - i)) by lia.
  replace (Z.to_nat (Z.of_nat (String.length s) - i))
    with (String.length s - Z.to_nat i)%nat by lia.
  change (Z.to_nat 0) with 0%nat.
  apply substring_split. lia.
Qed.

(* ================================================================== *)
(** ** splitFilename *)

(** C7. [splitFilename] splits at the last dot and keeps the dot in the
    extension: the three documented examples hold, and a filename whose
    only dot is its first character has no extension and is its own
    stem. *)
Theorem splitFilename_examples_and_leading_dot :
  splitFilename "a.b.c" = {| stem := "a.b"; extension := Some ".c" |} /\
  splitFilename "a." = {| stem := "a"; extension := Some "." |} /\
  splitFilename "a" = {| stem := "a"; extension := None |} /\
  (forall r : string,
      JsString.occurs "."%char r = false ->
      splitFilename (String "."%char r) =
        {| stem := String "."%char r; extension := None |}).
Proof.
  repeat split; try reflexivity.
  intros r Hr. unfold splitFilename, JsString.lastIndexOf.
  cbn [JsString.lastIndexOf_from]. rewrite Ascii.eqb_refl.
  rewrite lastIndexOf_from_absent by assumption.
  cbn [Z.gtb Z.compare]. now rewrite slice_whole.
Qed.

Lemma splitFilename_leading_dot_witness :
  splitFilename ".hex" = {| stem := ".hex"; extension := None |}.
Proof.
  apply (proj2 (proj2 (proj2 splitFilename_examples_and_leading_dot)) "hex").
  reflexivity.
Defined.

(** C10. Splitting is lossless: the stem followed by the extension (the
    empty string when the extension is [null]) is the filename. *)
Theorem splitFilename_lossless (a : string) :
  (stem (splitFilename a) ++ extensionText (extension (splitFilename a)))%string = a.
Proof.
  unfold splitFilename.
  pose proof (lastIndexOf_range a "."%char) as Hr.
  destruct (JsString.lastIndexOf a "."%char >? 0) eqn:Hi; cbn [stem extension extensionText].
  - apply slice_prefix_suffix. apply Z.gtb_lt in Hi. lia.
  - rewrite slice_whole. clear. induction a; cbn; congruence.
Qed.

(* ================================================================== *)
(** ** firmwareFileStems *)

Lemma getOwn_setOwn k k' v o :
  JsObject.getOwn k' (JsObject.setOwn k v o) =
  if String.eqb k k' then Some v else JsObject.getOwn k' o.
Proof.
  induction o as [|[k0 v0] o IH]; cbn.
  - rewrite (String.eqb_sym k' k). reflexivity.
  - destruct (String.eqb_spec k k0) as [-> | Hk0]; cbn.
    + rewrite (String.eqb_sym k' k0). now destruct (String.eqb k0 k').
    + rewrite IH. destruct (String.eqb_spec k' k0) as [-> | ?]; [|reflexivity].
      destruct (String.eqb_spec k k0); congruence.
Qed.

Lemma getOwn_put k k' v o :
  k <> "__proto__" ->
  JsObject.getOwn k' (JsObject.put k v o) =
  if String.eqb k k' then Some v else JsObject.getOwn k' o.
Proof.
  intros Hk. unfold JsObject.put.
  destruct (String.eqb_spec k "__proto__"); [congruence|]. apply getOwn_setOwn.
Qed.

Lemma getInt32_put k k' v o :
  k <> "__proto__" ->
  JsObject.getInt32 k' (JsObject.put k v o) =
  if String.eqb k k' then v else JsObject.getInt32 k' o.
Proof.
  intros Hk. unfold JsObject.getInt32. rewrite getOwn_put by assumption.
  now destruct (String.eqb k k').
Qed.

Lemma hasOwn_put k k' v o :
  k <> "__proto__" ->
  JsObject.hasOwn k' (JsObject.put k v o) = String.eqb k k' || JsObject.hasOwn k' o.
Proof.
  intros Hk. unfold JsObject.hasOwn. rewrite getOwn_put by assumption.
  now destruct (String.eqb k k').
Qed.

Lemma hasOwn_In k o : JsObject.hasOwn k o = true <-> In k (map fst o).
Proof.
  unfold JsObject.hasOwn. induction o as [|[k0 v0] o IH]; cbn.
  - split; [discriminate | intros []].
  - destruct (String.eqb_spec k k0) as [-> | Hk].
    + split; auto.
    + rewrite IH. split; [auto | intros [E | H]; congruence].
Qed.

Lemma getInt32_not_own k o : JsObject.hasOwn k o = false -> JsObject.getInt32 k o = 0.
Proof. unfold JsObject.hasOwn, JsObject.getInt32. now destruct (JsObject.getOwn k o). Qed.

(** One turn of the roll call when the guard does no harm: the file
    ors its two bits into the entry of its stem. *)
Lemma rollCall_ors fws file :
  JsObject.hasOwn "false" fws = false ->
  stem file <> "__proto__" ->
  (stem file = "" -> JsObject.getInt32 "" fws = 0) ->
  forall s,
    JsObject.getInt32 s (rollCall fws file) =
      (if String.eqb (stem file) s
       then Z.lor (Z.lor (JsObject.getInt32 s fws) (isExtension (extension file) ".hex"))
                  (Z.shiftl (isExtension (extension file) ".eeprom") 1)
       else JsObject.getInt32 s fws) /\
    (JsObject.hasOwn s (rollCall fws file) = true ->
     stem file = s \/ JsObject.hasOwn s fws = true).
Proof.
  intros Hfalse Hproto Hempty s. unfold rollCall.
  set (fws1 := if JsObject.has _ fws then JsObject.put (stem file) 0 fws else fws).
  assert (H1 : forall k, JsObject.getInt32 k fws1 = JsObject.getInt32 k fws /\
                         (JsObject.hasOwn k fws1 = true ->
                          stem file = k \/ JsObject.hasOwn k fws = true)).
  { intros k. subst fws1.
    destruct (String.eqb_spec (stem file) "") as [E | E].
    - destruct (JsObject.has "true" fws); [|auto].
      rewrite getInt32_put, hasOwn_put by assumption.
      destruct (String.eqb_spec (stem file) k) as [<- | ?]; cbn; [|auto].
      split; [|auto]. rewrite E. symmetry. now apply Hempty.
    - unfold JsObject.has. rewrite Hfalse. cbn. auto. }
  rewrite !getInt32_put, !hasOwn_put by assumption.
  rewrite String.eqb_refl.
  destruct (H1 s) as [G O]. destruct (H1 (stem file)) as [G' _].
  rewrite G, G'.
  destruct (String.eqb_spec (stem file) s) as [<- | ?]; cbn; auto.
Qed.

Lemma rollOf_snoc files f s :
  rollOf (files ++ [f]) s =
    if String.eqb (stem f) s
    then Z.lor (Z.lor (rollOf files s) (isExtension (extension f) ".hex"))
               (Z.shiftl (isExtension (extension f) ".eeprom") 1)
    else rollOf files s.
Proof.
  unfold rollOf, seen. rewrite !existsb_app. cbn [existsb].
  destruct (String.eqb (stem f) s); cbn [andb]; rewrite ?orb_false_r; [|reflexivity].
  destruct (existsb _ files), (existsb _ files);
    destruct (extension f) as [x|]; cbn [isExtension];
    try destruct (String.eqb x ".hex"); try destruct (String.eqb x ".eeprom");
    reflexivity.
Qed.

Lemma rolled_without k files fws :
  rolled files fws -> (forall f, In f files -> stem f <> k) ->
  JsObject.hasOwn k fws = false.
Proof.
  intros R H. destruct (JsObject.hasOwn k fws) eqn:E; [|reflexivity].
  destruct (proj2 (R k) E) as (f & Hf & Hs). now destruct (H f Hf).
Qed.

Lemma rollOf_empty_stem files :
  Forall plainFile files -> rollOf files "" = 0.
Proof.
  intros H. unfold rollOf, seen.
  assert (E : forall e, existsb (fun f => String.eqb (stem f) "" &&
                                 (isExtension (extension f) e =? 1)) files = false).
  { intros e. induction H as [|f l [_ Hf] _ IH]; cbn; [reflexivity|].
    rewrite IH, orb_false_r.
    destruct (String.eqb_spec (stem f) "") as [Hs | _]; [|reflexivity].
    now rewrite (Hf Hs). }
  now rewrite !E.
Qed.

Lemma fold_rollCall_rolled l :
  forall pre fws,
    Forall plainFile pre -> Forall plainFile l -> rolled pre fws ->
    rolled (pre ++ l) (fold_left rollCall l fws).
Proof.
  induction l as [|f l IH]; intros pre fws Hpre Hl R; cbn [fold_left].
  - now rewrite app_nil_r.
  - inversion Hl as [|? ? Hf Hl']; subst.
    replace (pre ++ f :: l)%list with ((pre ++ [f]) ++ l)%list
      by (now rewrite <- app_assoc).
    apply IH; [apply Forall_app; auto | assumption |].
    assert (Hfalse : JsObject.hasOwn "false" fws = false).
    { apply (rolled_without _ pre); [assumption|].
      intros g Hg E. rewrite Forall_forall in Hpre.
      destruct (Hpre g Hg) as [[N _] _]. congruence. }
    destruct Hf as [(_ & _ & Hproto) Hext].
    intros s.
    destruct (rollCall_ors fws f Hfalse Hproto) with (s := s) as [G O].
    { intros _. rewrite (proj1 (R "")). now apply rollOf_empty_stem. }
    split.
    + rewrite G, rollOf_snoc, (proj1 (R s)). reflexivity.
    + intros H. destruct (O H) as [E | H'].
      * exists f. split; [apply in_or_app; right; now left | assumption].
      * destruct (proj2 (R s) H') as (g & Hg & E).
        exists g. split; [apply in_or_app; now left | assumption].
Qed.

Lemma In_insertIndex e e0 l :
  In e (JsObject.insertIndex e0 l) <-> e = e0 \/ In e l.
Proof.
  induction l as [|x l IH]; cbn.
  - intuition congruence.
  - destruct (fst e0 <=? fst x)%N; cbn; rewrite ?IH; intuition congruence.
Qed.

Lemma In_indexKeys n k ks :
  In (n, k) (JsObject.indexKeys ks) <-> In k ks /\ JsObject.arrayIndex k = Some n.
Proof.
  unfold JsObject.indexKeys. induction ks as [|x ks IH]; cbn.
  - intuition.
  - destruct (JsObject.arrayIndex x) as [m|] eqn:E.
    + rewrite In_insertIndex, IH. split.
      * intros [[= -> ->] | [H1 H2]]; auto.
      * intros [[-> | H1] H2]; [left; congruence | auto].
    + rewrite IH. split.
      * intros [H1 H2]; auto.
      * intros [[-> | H1] H2]; [congruence | auto].
Qed.

Lemma In_forInKeys k o : In k (JsObject.forInKeys o) <-> In k (map fst o).
Proof.
  unfold JsObject.forInKeys. rewrite in_app_iff, filter_In, in_map_iff.
  unfold JsObject.isNamed. split.
  - intros [([n k'] & E & H) | [H _]]; [|assumption].
    cbn in E. subst k'. now apply In_indexKeys in H.
  - intros H. destruct (JsObject.arrayIndex k) as [n|] eqn:E; [|now right].
    left. exists (n, k). split; [reflexivity|]. now apply In_indexKeys.
Qed.

Lemma fold_collectStem fws keys :
  JsObject.hasOwn "hasOwnProperty" fws = false ->
  forall acc,
    fold_left (collectStem fws) keys (Ok acc) =
    Ok (acc ++ filter (fun k => JsObject.hasOwn k fws && (JsObject.getInt32 k fws =? 3)) keys)%list.
Proof.
  intros H. induction keys as [|k keys IH]; intros acc; cbn [fold_left filter].
  - now rewrite app_nil_r.
  - unfold collectStem at 2. unfold JsObject.callHasOwnProperty. rewrite H. cbn [rbind].
    destruct (JsObject.hasOwn k fws && (JsObject.getInt32 k fws =? 3)); rewrite IH;
      [now rewrite <- app_assoc | reflexivity].
Qed.

Lemma seen_hasFile files s e :
  seen (map splitFilename files) s e = true <-> hasFile files s e.
Proof.
  unfold seen, hasFile. rewrite existsb_exists. split.
  - intros (f & Hf & H). apply in_map_iff in Hf as (a & <- & Ha).
    apply andb_true_iff in H as [Hs He]. apply String.eqb_eq in Hs.
    exists a. split; [assumption|].
    destruct (splitFilename a) as [s' x]; cbn in *. subst s'.
    destruct x as [x|]; cbn in He; [|discriminate].
    destruct (String.eqb_spec x e); [congruence | discriminate].
  - intros (a & Ha & E). exists (splitFilename a). split; [now apply in_map|].
    rewrite E. cbn. now rewrite !String.eqb_refl.
Qed.

Lemma splitFilename_empty_stem a :
  stem (splitFilename a) = "" -> extension (splitFilename a) = None.
Proof.
  unfold splitFilename.
  destruct (JsString.lastIndexOf a "."%char >? 0) eqn:Hi; cbn [stem extension]; [|reflexivity].
  apply Z.gtb_lt in Hi. pose proof (lastIndexOf_range a "."%char) as Hr.
  unfold JsString.slice, JsString.relIndex, JsString.len in *.
  cbn [Z.ltb Z.compare].
  replace (JsString.lastIndexOf a "."%char <? 0) with false by (symmetry; apply Z.ltb_ge; lia).
  replace (Z.min 0 (Z.of_nat (String.length a))) with 0 by lia.
  rewrite Z.min_l, Z.sub_0_r, Z.max_l by lia. cbn [Z.to_nat].
  destruct a as [|x a]; [exfalso; unfold JsString.lastIndexOf in Hi; cbn in Hi; lia|].
  destruct (Z.to_nat (JsString.lastIndexOf (String x a) ".")) eqn:E; [exfalso; lia|].
  discriminate.
Qed.

(** Where no listed file has the stem [false], [hasOwnProperty] or
    [__proto__], [firmwareFileStems] returns, and returns exactly the
    stems that have both a [.hex] and an [.eeprom] file. *)
Theorem firmwareFileStems_pairs_plain_stems (files : list string) :
  (forall a, In a files -> plainStem (stem (splitFilename a))) ->
  exists stems,
    firmwareFileStems files = Ok stems /\
    forall s, In s stems <-> completeStem files s.
Proof.
  intros Hplain. unfold firmwareFileStems.
  assert (P : Forall plainFile (map splitFilename files)).
  { apply Forall_forall. intros f Hf. apply in_map_iff in Hf as (a & <- & Ha).
    split; [now apply Hplain | apply splitFilename_empty_stem]. }
  assert (R : rolled (map splitFilename files)
                     (fold_left rollCall (map splitFilename files) [])).
  { apply (fold_rollCall_rolled _ [] []); [constructor | assumption |].
    intros s. split; [reflexivity | discriminate]. }
  set (fws := fold_left rollCall (map splitFilename files) []) in *.
  assert (Hown : JsObject.hasOwn "hasOwnProperty" fws = false).
  { apply (rolled_without _ _ _ R). intros f Hf E.
    rewrite Forall_forall in P. destruct (P f Hf) as [(_ & N & _) _]. congruence. }
  rewrite (fold_collectStem fws _ Hown []). eexists. split; [reflexivity|].
  intros s. cbn [app]. rewrite filter_In, In_forInKeys, <- hasOwn_In.
  unfold completeStem. rewrite <- !seen_hasFile.
  destruct (R s) as [G _].
  assert (O : JsObject.getInt32 s fws = 3 -> JsObject.hasOwn s fws = true).
  { intros E. destruct (JsObject.hasOwn s fws) eqn:N; [reflexivity|].
    apply getInt32_not_own in N. lia. }
  rewrite andb_true_iff, Z.eqb_eq.
  assert (E3 : JsObject.getInt32 s fws = 3 <->
               seen (map splitFilename files) s ".hex" = true /\
               seen (map splitFilename files) s ".eeprom" = true).
  { rewrite G. unfold rollOf.
    destruct (seen _ s ".hex"), (seen _ s ".eeprom"); cbn; intuition (try discriminate; lia). }
  rewrite <- E3. intuition.
Qed.

Lemma firmwareFileStems_pairs_plain_stems_witness :
  exists stems,
    firmwareFileStems ["a"; "b.hex"; "c.eeprom"; "d.hex"; "d.eeprom"] = Ok stems /\
    forall s, In s stems <->
              completeStem ["a"; "b.hex"; "c.eeprom"; "d.hex"; "d.eeprom"] s.
Proof.
  apply (firmwareFileStems_pairs_plain_stems
           ["a"; "b.hex"; "c.eeprom"; "d.hex"; "d.eeprom"]).
  intros a Ha. cbn in Ha.
  repeat (destruct Ha as [<- | Ha]; [repeat split; discriminate|]).
  destruct Ha.
Defined.

(** The two other stems the roll call mishandles: [__proto__] is never
    recorded, and [hasOwnProperty] shadows the method the second loop
    calls. *)
Example firmwareFileStems_prototype_stems :
  firmwareFileStems ["__proto__.hex"; "__proto__.eeprom"] = Ok [] /\
  firmwareFileStems ["hasOwnProperty.hex"; "d.hex"; "d.eeprom"] = Throw TypeError.
Proof. split; reflexivity. Qed.

(** C5. The documented example holds; but the guard of the roll call
    reads [(!file.stem) in fws], so once a file with the stem [false]
    was seen every later file resets the bits of its stem, and the
    complete stem [d] is lost. *)
Theorem firmwareFileStems_negated_guard_loses_pairs :
  firmwareFileStems ["a"; "b.hex"; "c.eeprom"; "d.hex"; "d.eeprom"] = Ok ["d"] /\
  completeStem ["false.txt"; "d.hex"; "d.eeprom"] "d" /\
  firmwareFileStems ["false.txt"; "d.hex"; "d.eeprom"] = Ok [].
Proof.
  split; [reflexivity|]. split; [|reflexivity].
  split; [exists "d.hex" | exists "d.eeprom"]; cbn; auto.
Qed.

(* ================================================================== *)
(** ** Splitting at dots, and what [Version.fromString] reads *)

Lemma split_nonempty c s : JsString.split c s <> [].
Proof.
  destruct s as [|x s]; cbn; [discriminate|].
  destruct (Ascii.eqb x c); [discriminate|].
  destruct (JsString.split c s); discriminate.
Qed.

Lemma join_push c x p ps :
  join c (String x p :: ps) = String x (join c (p :: ps)).
Proof. destruct ps; reflexivity. Qed.

Lemma join_split c s : join c (JsString.split c s) = s.
Proof.
  induction s as [|x s IH]; [reflexivity|]. cbn [JsString.split].
  pose proof (split_nonempty c s) as Hne.
  destruct (JsString.split c s) as [|p ps]; [congruence|].
  destruct (Ascii.eqb_spec x c) as [-> | Hx].
  - cbn [join]. cbn [join] in IH. now rewrite IH.
  - rewrite join_push. now rewrite IH.
Qed.

Lemma split_without_separator c s :
  JsString.occurs c s = false -> JsString.split c s = [s].
Proof.
  induction s as [|x s IH]; cbn; [reflexivity|].
  intros H. apply orb_false_iff in H as [Hx Hs]. rewrite Hx, (IH Hs). reflexivity.
Qed.

Lemma split_at_separator c x rest :
  JsString.occurs c x = false ->
  JsString.split c (x ++ String c rest) = x :: JsString.split c rest.
Proof.
  induction x as [|y x IH]; cbn.
  - intros _. now rewrite Ascii.eqb_refl.
  - intros H. apply orb_false_iff in H as [Hy Hx]. now rewrite Hy, (IH Hx).
Qed.

Lemma digits_from_no_dot s acc n :
  JsString.digits_from s acc = Some n -> JsString.occurs "."%char s = false.
Proof.
  revert acc. induction s as [|x s IH]; intros acc; cbn; [reflexivity|].
  destruct (JsString.digitValue x) eqn:Hd; [|discriminate].
  intros H. rewrite (IH _ H), orb_false_r.
  destruct (Ascii.eqb_spec x "."%char) as [-> | _]; [discriminate Hd | reflexivity].
Qed.

Lemma digits_no_dot s n :
  JsString.digits s = Some n -> JsString.occurs "."%char s = false.
Proof.
  destruct s; [discriminate|]. apply digits_from_no_dot.
Qed.

Lemma split_three_integers body v :
  map JsString.digits (JsString.split "."%char body) =
    [Some (Version.major v); Some (Version.minor v); Some (Version.patch v)]
  <-> spells body v.
Proof.
  split.
  - intros H. pose proof (join_split "."%char body) as J.
    destruct (JsString.split "."%char body) as [|a [|b [|c [|d l]]]]; try discriminate.
    injection H as Ha Hb Hc. exists a, b, c. auto.
  - intros (a & b & c & -> & Ha & Hb & Hc).
    change (join "."%char [a; b; c]) with (a ++ String "." (b ++ String "." c))%string.
    rewrite split_at_separator by (eapply digits_no_dot; eassumption).
    rewrite split_at_separator by (eapply digits_no_dot; eassumption).
    rewrite split_without_separator by (eapply digits_no_dot; eassumption).
    cbn. now rewrite Ha, Hb, Hc.
Qed.

Lemma fromString_body body v :
  match map JsString.digits (JsString.split "."%char body) with
  | [Some a; Some b; Some c] =>
      Some {| Version.major := a; Version.minor := b; Version.patch := c |}
  | _ => None
  end = Some v <-> spells body v.
Proof.
  rewrite <- split_three_integers. destruct v as [x y z]; cbn.
  destruct (map _ _) as [|[a|] [|[b|] [|[c|] [|d l]]]]; split; try discriminate;
    congruence.
Qed.

(** [Version.fromString] reads three dot-separated integers, after a
    leading [v] if there is one. *)
Lemma fromString_reads r v :
  Version.fromString (Some r) = Some v <->
  spells r v \/ exists r', r = String "v" r' /\ spells r' v.
Proof.
  unfold Version.fromString. split.
  - intros H.
    assert (D : (exists r', r = String "v" r') \/
                (match r with String "v" r' => r' | _ => r end) = r).
    { destruct r as [|x r]; [now right|].
      destruct (Ascii.eqb_spec x "v"%char) as [-> | Hx]; [left; eauto|].
      right. destruct x as [[] [] [] [] [] [] [] []]; try reflexivity.
      now destruct Hx. }
    destruct D as [(r' & ->) | E].
    + right. exists r'. split; [reflexivity|]. now apply fromString_body.
    + rewrite E in H. left. now apply fromString_body.
  - intros [H | (r' & -> & H)].
    + destruct H as (a & b & c & -> & Ha & Hb & Hc).
      assert (S : spells (join "."%char [a; b; c]) v) by (exists a, b, c; auto).
      destruct a as [|x a]; [discriminate Ha|].
      apply fromString_body in S.
      destruct (Ascii.eqb_spec x "v"%char) as [-> | Hx]; [discriminate Ha|].
      destruct x as [[] [] [] [] [] [] [] []]; try exact S. now destruct Hx.
    + now apply fromString_body.
Qed.

(* ================================================================== *)
(** ** localVersionList *)

Lemma dropV_Some s r : dropV s = Some r <-> s = String "v" r.
Proof.
  assert (T : forall t, JsString.slice (String "v" t) 1 None = t).
  { intros t. unfold JsString.slice, JsString.relIndex, JsString.len.
    cbn [String.length Z.ltb Z.compare].
    rewrite Z.min_l by lia. rewrite Z.max_l by lia.
    replace (Z.to_nat (Z.of_nat (S (String.length t)) - 1)) with (String.length t) by lia.
    cbn. apply substring_all. }
  split.
  - destruct s as [|x s]; [discriminate|].
    destruct (Ascii.eqb_spec x "v"%char) as [-> | Hx].
    + cbn [dropV]. rewrite T. congruence.
    + destruct x as [[] [] [] [] [] [] [] []]; try discriminate. now destruct Hx.
  - intros ->. cbn [dropV]. now rewrite T.
Qed.

Lemma In_filterBoolean {A B} (f : B -> option A) l v :
  In v (filterBoolean (map f l)) <-> exists x, In x l /\ f x = Some v.
Proof.
  induction l as [|y l IH]; cbn.
  - split; [intros [] | intros (_ & [] & _)].
  - destruct (f y) as [a|] eqn:E; cbn; rewrite IH; split.
    + intros [<- | (x & Hx & Hf)]; eauto.
    + intros (x & [<- | Hx] & Hf); [left; congruence | eauto].
    + intros (x & Hx & Hf); eauto.
    + intros (x & [<- | Hx] & Hf); [congruence | eauto].
Qed.

(** C4, as the code has it. [localVersionList()] keeps a complete stem
    exactly when it begins with a lower-case [v] and
    [Version.fromString] parses what follows that [v]; the version is
    the one parsed. Every other stem is dropped, and nothing is
    thrown. *)
Theorem localVersionList_keeps_lowercase_v_stems
    (files stems : list string) :
  firmwareFileStems files = Ok stems ->
  exists vs,
    localVersionList files = Ok vs /\
    forall v,
      In v vs <->
      exists r, In (String "v" r) stems /\ Version.fromString (Some r) = Some v.
Proof.
  intros H. unfold localVersionList. rewrite H. cbn [rbind].
  eexists. split; [reflexivity|]. intros v.
  rewrite map_map, In_filterBoolean. split.
  - intros (s & Hs & Hv).
    destruct (dropV s) as [r|] eqn:E; [|discriminate Hv].
    apply dropV_Some in E. subst s. exists r. now split.
  - intros (r & Hr & Hv). exists (String "v" r). split; [assumption|].
    now rewrite (proj2 (dropV_Some _ r) eq_refl).
Qed.

Lemma localVersionList_keeps_lowercase_v_witness :
  exists vs,
    localVersionList ["v1.2.3.hex"; "v1.2.3.eeprom"; "1.2.4.hex"; "1.2.4.eeprom"] = Ok vs /\
    forall v,
      In v vs <->
      exists r, In (String "v" r) ["v1.2.3"; "1.2.4"] /\
                Version.fromString (Some r) = Some v.
Proof.
  apply (localVersionList_keeps_lowercase_v_stems
           ["v1.2.3.hex"; "v1.2.3.eeprom"; "1.2.4.hex"; "1.2.4.eeprom"]
           ["v1.2.3"; "1.2.4"]).
  reflexivity.
Defined.

(** C4, as the spec has it, fails: the complete stem [V1.2.3] begins
    with an upper-case [V] and goes on with three integers, yet no
    version comes of it. *)
Lemma localVersionList_uppercase_V_counterexample :
  firmwareFileStems ["V1.2.3.hex"; "V1.2.3.eeprom"] = Ok ["V1.2.3"] /\
  spells "1.2.3" v123 /\
  localVersionList ["V1.2.3.hex"; "V1.2.3.eeprom"] = Ok [] /\
  ~ (forall vs, localVersionList ["V1.2.3.hex"; "V1.2.3.eeprom"] = Ok vs -> In v123 vs).
Proof.
  split; [reflexivity|]. split; [|split; [reflexivity|]].
  - exists "1", "2", "3". repeat split.
  - intros H. exact (H [] eq_refl).
Qed.

(* ================================================================== *)
(** ** The order of versions *)

Lemma Version_compare_eq a b : Version.compare a b = Eq <-> a = b.
Proof.
  destruct a as [a1 a2 a3], b as [b1 b2 b3]. unfold Version.compare; cbn.
  split.
  - destruct (N.compare_spec a1 b1); try discriminate.
    destruct (N.compare_spec a2 b2); try discriminate.
    intros E%N.compare_eq_iff. congruence.
  - intros [= -> -> ->]. now rewrite !N.compare_refl.
Qed.

Lemma Version_eq_iff a b : Version.eq a (Some b) = true <-> a = b.
Proof.
  unfold Version.eq. rewrite <- Version_compare_eq.
  destruct (Version.compare a b); intuition discriminate.
Qed.

Lemma Version_leb_refl a : Version.leb a a = true.
Proof.
  unfold Version.leb. now rewrite (proj2 (Version_compare_eq a a) eq_refl).
Qed.

Lemma Version_leb_total a b : Version.leb a b = false -> Version.leb b a = true.
Proof.
  destruct a as [a1 a2 a3], b as [b1 b2 b3]. unfold Version.leb, Version.compare; cbn.
  destruct (N.compare_spec a1 b1), (N.compare_spec b1 a1); try lia; try discriminate;
    try reflexivity.
  destruct (N.compare_spec a2 b2), (N.compare_spec b2 a2); try lia; try discriminate;
    try reflexivity.
  destruct (N.compare_spec a3 b3), (N.compare_spec b3 a3); try lia; try discriminate;
    reflexivity.
Qed.

Lemma Version_leb_trans a b c :
  Version.leb a b = true -> Version.leb b c = true -> Version.leb a c = true.
Proof.
  destruct a as [a1 a2 a3], b as [b1 b2 b3], c as [c1 c2 c3].
  unfold Version.leb, Version.compare; cbn.
  destruct (N.compare_spec a1 b1), (N.compare_spec b1 c1), (N.compare_spec a1 c1);
    try lia; try discriminate; try reflexivity;
  destruct (N.compare_spec a2 b2), (N.compare_spec b2 c2), (N.compare_spec a2 c2);
    try lia; try discriminate; try reflexivity;
  destruct (N.compare_spec a3 b3), (N.compare_spec b3 c3), (N.compare_spec a3 c3);
    try lia; try discriminate; reflexivity.
Qed.

Lemma Version_max_either a b : Version.max a b = a \/ Version.max a b = b.
Proof. unfold Version.max. destruct (Version.leb a b); auto. Qed.

Lemma Version_max_upper a b :
  Version.leb a (Version.max a b) = true /\ Version.leb b (Version.max a b) = true.
Proof.
  unfold Version.max. destruct (Version.leb a b) eqn:E.
  - split; [assumption | apply Version_leb_refl].
  - split; [apply Version_leb_refl | now apply Version_leb_total].
Qed.

(* ================================================================== *)
(** ** Folding a choice function over the local versions *)

Section Choice.

Variable vmax : Version.t -> Version.t -> Version.t.
Hypothesis vmax_either : forall a b, vmax a b = a \/ vmax a b = b.

Lemma fold_left_choice_In xs x : In (fold_left vmax xs x) (x :: xs).
Proof.
  revert x. induction xs as [|y xs IH]; intros x; cbn [fold_left].
  - now left.
  - destruct (IH (vmax x y)) as [H | H].
    + rewrite <- H. destruct (vmax_either x y) as [-> | ->]; cbn; auto.
    + right. now right.
Qed.

Lemma reduce_choice_In vs v : reduce vmax vs = Ok v -> In v vs.
Proof.
  destruct vs as [|x xs]; cbn; [discriminate|].
  intros [= <-]. apply fold_left_choice_In.
Qed.

End Choice.

Lemma fold_left_max_upper xs x y :
  In y (x :: xs) -> Version.leb y (fold_left Version.max xs x) = true.
Proof.
  revert x y. induction xs as [|z xs IH]; intros x y Hy; cbn [fold_left].
  - destruct Hy as [<- | []]. apply Version_leb_refl.
  - destruct (Version_max_upper x z) as [Hx Hz].
    destruct Hy as [<- | [<- | Hy]].
    + eapply Version_leb_trans; [exact Hx|]. apply IH. now left.
    + eapply Version_leb_trans; [exact Hz|]. apply IH. now left.
    + apply IH. now right.
Qed.

Lemma reduce_max_isMaximum vs :
  vs <> [] -> exists m, reduce Version.max vs = Ok m /\ isMaximum m vs.
Proof.
  destruct vs as [|x xs]; [congruence|]. intros _.
  exists (fold_left Version.max xs x). split; [reflexivity|]. split.
  - apply fold_left_choice_In. apply Version_max_either.
  - intros y Hy. now apply fold_left_max_upper.
Qed.

Lemma existsb_eq_In vs v :
  existsb (fun x => Version.eq x (Some v)) vs = true <-> In v vs.
Proof.
  rewrite existsb_exists. split.
  - intros (x & Hx & E). apply Version_eq_iff in E. now subst.
  - intros H. exists v. split; [assumption|]. now apply Version_eq_iff.
Qed.

Lemma existsb_eq_absent vs :
  existsb (fun x => Version.eq x None) vs = false.
Proof. induction vs; cbn; auto. Qed.

(* ================================================================== *)
(** ** latestVersion *)

Lemma latestVersionWith_unfold vmax files lrfv vs :
  localVersionList files = Ok vs ->
  latestVersionWith vmax files lrfv =
    (lv <- reduce vmax vs ;;
     Ok (if existsb (fun x => Version.eq x (Version.fromString lrfv)) vs
         then Version.fromString lrfv else Some lv))%result.
Proof.
  intros H. unfold latestVersionWith, localVersionExists. rewrite H. cbn [rbind].
  destruct (reduce vmax vs); reflexivity.
Qed.

(** With a local version in stock the call returns, and returns one
    of the local versions. *)
Lemma latestVersion_returns_local files lrfv vs :
  localVersionList files = Ok vs -> vs <> [] ->
  exists v, In v vs /\ latestVersion files lrfv = Ok (Some v).
Proof.
  intros Hvs Hne. unfold latestVersion.
  rewrite (latestVersionWith_unfold _ _ _ _ Hvs).
  destruct (reduce_max_isMaximum vs Hne) as (m & -> & Hm & _). cbn [rbind].
  destruct (Version.fromString lrfv) as [r|].
  - destruct (existsb _ vs) eqn:E.
    + exists r. split; [now apply existsb_eq_In | reflexivity].
    + now exists m.
  - rewrite existsb_eq_absent. now exists m.
Qed.

(** Over the list that [localVersionList()] returns:
    [latestVersion()] returns the persisted remote version whenever it
    parses and is in that list, whatever else the list holds;
    otherwise, when the list is not empty, it returns its maximum. *)
Theorem latestVersion_remote_overrides_local_maximum
    (files : list string) (lrfv : option string) (vs : list Version.t) :
  localVersionList files = Ok vs ->
  (forall v, Version.fromString lrfv = Some v -> In v vs ->
             latestVersion files lrfv = Ok (Some v)) /\
  ((forall v, Version.fromString lrfv = Some v -> ~ In v vs) -> vs <> [] ->
   exists m, latestVersion files lrfv = Ok (Some m) /\ isMaximum m vs).
Proof.
  intros Hvs. unfold latestVersion.
  rewrite (latestVersionWith_unfold _ _ _ _ Hvs). split.
  - intros v Hv Hin. rewrite Hv.
    destruct (reduce_max_isMaximum vs) as (m & -> & _).
    { intros ->. destruct Hin. }
    cbn [rbind]. now rewrite (proj2 (existsb_eq_In vs v) Hin).
  - intros Hout Hne.
    destruct (reduce_max_isMaximum vs Hne) as (m & -> & Hm).
    exists m. split; [|assumption]. cbn [rbind].
    destruct (Version.fromString lrfv) as [v|] eqn:Hv.
    + destruct (existsb (fun x => Version.eq x (Some v)) vs) eqn:E; [|reflexivity].
      apply existsb_eq_In in E. now destruct (Hout v eq_refl).
    + now rewrite existsb_eq_absent.
Qed.

Lemma latestVersion_remote_overrides_witness :
  latestVersion ["v1.0.0.hex"; "v1.0.0.eeprom"; "v2.0.0.hex"; "v2.0.0.eeprom"]
                (Some "1.0.0") = Ok (Some v100) /\
  exists m, latestVersion ["v1.0.0.hex"; "v1.0.0.eeprom"; "v2.0.0.hex"]
                          (Some "3.0.0") = Ok (Some m) /\ isMaximum m [v100].
Proof.
  split.
  - apply (proj1 (latestVersion_remote_overrides_local_maximum
                    ["v1.0.0.hex"; "v1.0.0.eeprom"; "v2.0.0.hex"; "v2.0.0.eeprom"]
                    (Some "1.0.0") [v100; v200] eq_refl) v100 eq_refl).
    cbn. auto.
  - apply (proj2 (latestVersion_remote_overrides_local_maximum
                    ["v1.0.0.hex"; "v1.0.0.eeprom"; "v2.0.0.hex"]
                    (Some "3.0.0") [v100] eq_refl)).
    + intros v [= <-] [H | []]. discriminate H.
    + discriminate.
Defined.

(** C1, at a listing the code gets wrong. The files [v1.0.0.hex] and
    [v1.0.0.eeprom] are both listed and the persisted remote version
    [1.0.0] parses, yet [latestVersion()] returns [2.0.0]: the pair is
    listed after a file of stem [false], so [firmwareFileStems] loses
    it, and the local versions are [2.0.0] alone. Without [false.txt]
    the same call returns [1.0.0]. *)
Theorem latestVersion_overlooks_remote_listed_after_false :
  completeStem ["v2.0.0.hex"; "v2.0.0.eeprom"; "false.txt"; "v1.0.0.hex"; "v1.0.0.eeprom"]
               "v1.0.0" /\
  Version.fromString (Some "1.0.0") = Some v100 /\
  localVersionList
    ["v2.0.0.hex"; "v2.0.0.eeprom"; "false.txt"; "v1.0.0.hex"; "v1.0.0.eeprom"] =
    Ok [v200] /\
  latestVersion
    ["v2.0.0.hex"; "v2.0.0.eeprom"; "false.txt"; "v1.0.0.hex"; "v1.0.0.eeprom"]
    (Some "1.0.0") = Ok (Some v200) /\
  latestVersion
    ["v2.0.0.hex"; "v2.0.0.eeprom"; "v1.0.0.hex"; "v1.0.0.eeprom"]
    (Some "1.0.0") = Ok (Some v100).
Proof.
  split; [|repeat split; vm_compute; reflexivity].
  split; [exists "v1.0.0.hex" | exists "v1.0.0.eeprom"];
    (split; [cbn; auto 10 | vm_compute; reflexivity]).
Qed.

(** C3, as the code has it. With no local version, [latestVersion()]
    does not return: [reduce] on the empty array throws a [TypeError]. *)
Theorem latestVersion_throws_without_local_versions
    (files : list string) (lrfv : option string) :
  localVersionList files = Ok [] ->
  latestVersion files lrfv = Throw TypeError.
Proof.
  intros H. unfold latestVersion. now rewrite (latestVersionWith_unfold _ _ _ _ H).
Qed.

Lemma latestVersion_throws_witness :
  latestVersion ["v2.0.0.hex"; "readme.txt"] (Some "2.0.0") = Throw TypeError.
Proof.
  apply latestVersion_throws_without_local_versions. reflexivity.
Defined.

(** C3, as the spec has it, fails: with no firmware file at all the
    set of local versions is empty, and the call neither returns
    [undefined] nor returns at all. *)
Lemma latestVersion_empty_counterexample :
  localVersionList [] = Ok [] /\
  latestVersion [] None <> Ok None /\
  forall r, latestVersion [] None <> Ok r.
Proof. repeat split; intros; discriminate. Qed.

(** A version that [latestVersion()] returns is in the list that
    [localVersionList()] returns, for any [Version.max] that returns
    one of its two arguments; and when that list is not empty,
    [startUpdater] flashes a version of it. *)
Lemma latestVersionWith_returns_local
    (vmax : Version.t -> Version.t -> Version.t) :
  (forall a b, vmax a b = a \/ vmax a b = b) ->
  (forall files lrfv vs v,
      localVersionList files = Ok vs ->
      latestVersionWith vmax files lrfv = Ok (Some v) ->
      In v vs) /\
  (forall w vs,
      localVersionList (firmwareFiles w) = Ok vs -> vs <> [] ->
      exists v, In v vs /\
        startUpdater w =
          (Ok tt,
           emit (FirmwareUpdate (Some v)
                   ("v" ++ Version.toString v ++ ".hex")
                   ("v" ++ Version.toString v ++ ".eeprom")) w)).
Proof.
  intros Hmax. split.
  - intros files lrfv vs v Hvs. rewrite (latestVersionWith_unfold _ _ _ _ Hvs).
    destruct (reduce vmax vs) as [lv|] eqn:Hlv; cbn [rbind]; [|discriminate].
    destruct (Version.fromString lrfv) as [r|].
    + destruct (existsb _ vs) eqn:E; intros [= <-].
      * now apply existsb_eq_In.
      * eapply reduce_choice_In; eassumption.
    + rewrite existsb_eq_absent. intros [= <-].
      eapply reduce_choice_In; eassumption.
  - intros w vs Hvs Hne.
    destruct (latestVersion_returns_local (firmwareFiles w)
                (Config.latestRemoteFirmwareVersion (config w)) vs Hvs Hne)
      as (v & Hv & E).
    exists v. split; [assumption|].
    unfold startUpdater, bind, listFirmwareFiles, config_get, lift, firmwareUpdate.
    now rewrite E.
Qed.

(** C9, at a listing the code gets wrong. The files [v1.0.0.hex] and
    [v1.0.0.eeprom] are both listed, so a version is locally
    available, yet [startUpdater()] flashes nothing: the pair is
    listed after a file of stem [false], [firmwareFileStems] loses it,
    the list of local versions is empty and [latestVersion()] throws a
    [TypeError] before the bridge is called. Without [false.txt],
    [1.0.0] is flashed. *)
Theorem startUpdater_throws_on_pair_listed_after_false :
  completeStem ["false.txt"; "v1.0.0.hex"; "v1.0.0.eeprom"] "v1.0.0" /\
  Version.fromString (Some "1.0.0") = Some v100 /\
  localVersionList ["false.txt"; "v1.0.0.hex"; "v1.0.0.eeprom"] = Ok [] /\
  latestVersion ["false.txt"; "v1.0.0.hex"; "v1.0.0.eeprom"] None = Throw TypeError /\
  startUpdater (boot 0 Config.empty ["false.txt"; "v1.0.0.hex"; "v1.0.0.eeprom"] None) =
    (Throw TypeError,
     boot 0 Config.empty ["false.txt"; "v1.0.0.hex"; "v1.0.0.eeprom"] None) /\
  startUpdater (boot 0 Config.empty ["v1.0.0.hex"; "v1.0.0.eeprom"] None) =
    (Ok tt,
     emit (FirmwareUpdate (Some v100) "v1.0.0.hex" "v1.0.0.eeprom")
       (boot 0 Config.empty ["v1.0.0.hex"; "v1.0.0.eeprom"] None)).
Proof.
  split; [|repeat split; vm_compute; reflexivity].
  split; [exists "v1.0.0.hex" | exists "v1.0.0.eeprom"];
    (split; [cbn; auto 10 | vm_compute; reflexivity]).
Qed.

(* ================================================================== *)
(** ** Scheduling *)

Lemma clamp_range x a b : a <= b -> a <= clamp x a b <= b.
Proof. unfold clamp. lia. Qed.

(** What one call of [scheduleFirmwareUpdateCheck] does to the host. *)
Lemma scheduleFirmwareUpdateCheck_effects (delay : Z) (w : world) :
  let now := clock w (ticks w) in
  let ok := setOk w (sets w) in
  let w' := snd (scheduleFirmwareUpdateCheck delay w) in
  fst (scheduleFirmwareUpdateCheck delay w) = Ok tt /\
  trace w' =
    (trace w ++
     [ConsoleLog ("Scheduling firmware check in " ++ JsString.ofZ delay ++ "ms");
      ConfigSetNextCheck (now + delay) ok] ++
     (if ok then [] else [ConsoleWarn "Unable to set nextCheck in configuration"]) ++
     [SetTimeout delay])%list /\
  timers w' = (timers w ++ [delay])%list /\
  inFlight w' = inFlight w /\
  Config.nextCheck (config w') =
    (if ok then Some (now + delay) else Config.nextCheck (config w)).
Proof.
  unfold scheduleFirmwareUpdateCheck, bind, console_log, Date_now,
    config_set_nextCheck, writeConfig, console_warn, setTimeout, ret, emit.
  cbn. destruct (setOk w (sets w)); cbn;
    repeat split; rewrite <- ?app_assoc; reflexivity.
Qed.

(** C8. [scheduleFirmwareUpdateCheck(delay)] never throws; it asks the
    configuration to store [nextCheck = now + delay] and only then arms
    the timer; a write that fails adds a warning and nothing else, and
    the timer is armed all the same. *)
Theorem scheduleFirmwareUpdateCheck_persists_then_arms (delay : Z) (w : world) :
  let now := clock w (ticks w) in
  let w' := snd (scheduleFirmwareUpdateCheck delay w) in
  fst (scheduleFirmwareUpdateCheck delay w) = Ok tt /\
  timers w' = (timers w ++ [delay])%list /\
  (setOk w (sets w) = true ->
     Config.nextCheck (config w') = Some (now + delay) /\
     trace w' =
       (trace w ++
        [ConsoleLog ("Scheduling firmware check in " ++ JsString.ofZ delay ++ "ms");
         ConfigSetNextCheck (now + delay) true;
         SetTimeout delay])%list) /\
  (setOk w (sets w) = false ->
     config w' = config w /\
     trace w' =
       (trace w ++
        [ConsoleLog ("Scheduling firmware check in " ++ JsString.ofZ delay ++ "ms");
         ConfigSetNextCheck (now + delay) false;
         ConsoleWarn "Unable to set nextCheck in configuration";
         SetTimeout delay])%list).
Proof.
  unfold scheduleFirmwareUpdateCheck, bind, console_log, Date_now,
    config_set_nextCheck, writeConfig, console_warn, setTimeout, ret, emit.
  cbn. destruct (setOk w (sets w)); cbn;
    repeat split; intros; try discriminate;
    rewrite <- ?app_assoc; reflexivity.
Qed.

Lemma scheduleFirmwareUpdateCheck_refused_write_witness :
  config (snd (scheduleFirmwareUpdateCheck 5000
                 (refusingWrites (boot 1000 Config.empty [] None)))) = Config.empty /\
  trace (snd (scheduleFirmwareUpdateCheck 5000
                (refusingWrites (boot 1000 Config.empty [] None)))) =
    [ConsoleLog "Scheduling firmware check in 5000ms";
     ConfigSetNextCheck 6000 false;
     ConsoleWarn "Unable to set nextCheck in configuration";
     SetTimeout 5000].
Proof.
  apply (proj2 (proj2 (proj2 (scheduleFirmwareUpdateCheck_persists_then_arms 5000
                                (refusingWrites (boot 1000 Config.empty [] None)))))).
  reflexivity.
Defined.



(* ================================================================== *)
(** ** The check loop *)

Lemma errorResponseHandler_rearms w :
  fst (errorResponseHandler w) = Ok tt /\
  timers (snd (errorResponseHandler w)) = (timers w ++ [10000])%list /\
  inFlight (snd (errorResponseHandler w)) = inFlight w.
Proof.
  unfold errorResponseHandler, bind, console_warn.
  destruct (scheduleFirmwareUpdateCheck_effects 10000
              (emit (ConsoleWarn "Error occurred attempting to download the firmware.") w))
    as (E & _ & T & F & _).
  destruct (scheduleFirmwareUpdateCheck 10000 _) as [r w']. cbn in *. auto.
Qed.

Lemma responseHandler_not_json w : responseHandler None w = (Throw SyntaxError, w).
Proof. reflexivity. Qed.

Lemma responseHandler_no_running_version json w :
  linkbotLabsVersion w = None -> responseHandler (Some json) w = (Ok tt, w).
Proof. intros H. unfold responseHandler, bind, ret. cbn. now rewrite H. Qed.

Lemma quiet_ret {A} (a : A) : quiet (ret a).
Proof. intros w. now split. Qed.

Lemma quiet_raise {A} e : quiet (@raise A e).
Proof. intros w. now split. Qed.

Lemma quiet_lift {A} (r : result A) : quiet (lift r).
Proof. intros w. now split. Qed.

Lemma quiet_read {A} (f : world -> A) : quiet (fun w => (Ok (f w), w)).
Proof. intros w. now split. Qed.

Lemma quiet_bind {A B} (m : M A) (k : A -> M B) :
  quiet m -> (forall a, quiet (k a)) -> quiet (bind m k).
Proof.
  intros Hm Hk w. unfold bind. destruct (Hm w) as [T F].
  destruct (m w) as [[a | e] w1]; cbn in *.
  - destruct (Hk a w1) as [T' F']. split; congruence.
  - now split.
Qed.

Lemma quiet_console_log msg : quiet (console_log msg).
Proof. intros w. now split. Qed.

Lemma quiet_console_warn msg : quiet (console_warn msg).
Proof. intros w. now split. Qed.

Lemma quiet_saveFirmwareFile url md5 : quiet (saveFirmwareFile url md5).
Proof. intros w. now split. Qed.

Lemma quiet_config_set_latestRemoteFirmwareVersion v :
  quiet (config_set_latestRemoteFirmwareVersion v).
Proof. intros w. now split. Qed.

Lemma quiet_ofDefined {A} (x : option A) : quiet (ofDefined x).
Proof. destruct x; [apply quiet_ret | apply quiet_raise]. Qed.

Lemma quiet_md5Entry json name : quiet (md5Entry json name).
Proof.
  unfold md5Entry. apply quiet_bind; [apply quiet_ofDefined|]. intros sums.
  destruct (lookup name sums); [apply quiet_ret|].
  destruct (existsb _ _); [apply quiet_ret | apply quiet_raise].
Qed.

Lemma armsOnReturn_bind {A} d (m : M A) (k : A -> M unit) :
  quiet m -> (forall a, armsOnReturn d (k a)) -> armsOnReturn d (bind m k).
Proof.
  intros Hm Hk w. unfold bind. destruct (Hm w) as [T F].
  destruct (m w) as [[a | e] w1]; cbn in *.
  - destruct (Hk a w1) as [F' H]. rewrite T, F in *. auto.
  - split; [assumption|]. right. eauto.
Qed.

Lemma armsOnReturn_schedule d : armsOnReturn d (scheduleFirmwareUpdateCheck d).
Proof.
  intros w. destruct (scheduleFirmwareUpdateCheck_effects d w) as (E & _ & T & F & _).
  auto.
Qed.

Lemma quiet_config_get {A} (key : Config.t -> A) : quiet (config_get key).
Proof. intros w. now split. Qed.

Lemma quiet_Date_now : quiet Date_now.
Proof. intros w. now split. Qed.

Lemma quiet_listFirmwareFiles : quiet listFirmwareFiles.
Proof. intros w. now split. Qed.

Create HintDb quiet.
#[local] Hint Resolve quiet_listFirmwareFiles quiet_config_get quiet_Date_now quiet_ret quiet_raise quiet_lift quiet_read quiet_console_log
  quiet_console_warn quiet_saveFirmwareFile quiet_config_set_latestRemoteFirmwareVersion
  quiet_ofDefined quiet_md5Entry : quiet.

Ltac quiet_steps :=
  repeat first
    [ apply quiet_bind; [|intros ?]
    | match goal with
      | |- quiet (if ?b then _ else _) => destruct b
      | |- quiet (match ?x with _ => _ end) => destruct x
      end
    | solve [auto with quiet] ].

(** With a running version, the [load] listener arms the next check
    exactly when it runs to its end. *)
Lemma responseHandler_armsOnReturn body w :
  linkbotLabsVersion w <> None ->
  inFlight (snd (responseHandler body w)) = inFlight w /\
  ((fst (responseHandler body w) = Ok tt /\
    timers (snd (responseHandler body w)) = (timers w ++ [60000])%list) \/
   (exists e, fst (responseHandler body w) = Throw e) /\
   timers (snd (responseHandler body w)) = timers w).
Proof.
  intros Hv. destruct body as [json|].
  2:{ cbn. split; [reflexivity|]. right. split; [eauto | reflexivity]. }
  destruct (linkbotLabsVersion w) as [v|] eqn:V; [clear Hv | congruence].
  destruct (responseHandler (Some json) w) as [r w'] eqn:E. cbn [fst snd].
  unfold responseHandler in E. unfold bind at 1 in E. unfold ret at 1 in E.
  unfold bind at 1 in E. rewrite V in E.
  match type of E with
  | ?m w = _ => assert (H : armsOnReturn 60000 m)
  end.
  { repeat first
      [ exact (armsOnReturn_schedule CHECK_INTERVAL)
      | apply armsOnReturn_bind; [solve [quiet_steps] | intros ?] ]. }
  specialize (H w). rewrite E in H. exact H.
Qed.

Lemma main_effects w :
  inFlight (snd (main w)) = inFlight w /\
  exists d, timers (snd (main w)) = (timers w ++ [d])%list.
Proof.
  unfold main, bind.
  assert (Q : quiet initialDelay).
  { unfold initialDelay. quiet_steps. }
  destruct (Q w) as [T F]. destruct (initialDelay w) as [[d | e] w0] eqn:E;
    cbn [snd] in T, F.
  - destruct (scheduleFirmwareUpdateCheck_effects d w0) as (_ & _ & T' & F' & _).
    rewrite F', T', T, F. eauto.
  - exfalso. revert E. unfold initialDelay, bind, config_get, Date_now, ret.
    destruct (Config.nextCheck (config w)); discriminate.
Qed.

Lemma step_calm e w w' : calm w -> step e w = Some w' -> calm w'.
Proof.
  unfold calm. intros C. destruct e as [|status body|]; cbn [step].
  - destruct (timers w) as [|d ts] eqn:T; [discriminate|]. intros [= <-].
    cbn. rewrite T. cbn in *. lia.
  - destruct (inFlight w) as [|n] eqn:F; [discriminate|]. intros [= <-].
    assert (Tw : timers w = []) by (destruct (timers w); [reflexivity | cbn in C; lia]).
    assert (n = O) by lia. subst n.
    destruct (linkbotLabsVersion w) as [v|] eqn:V.
    + destruct (responseHandler_armsOnReturn body (answered w)) as [Fl [[_ T] | [_ T]]].
      { cbn. congruence. }
      * rewrite Fl, T. cbn. rewrite Tw, F. cbn. lia.
      * rewrite Fl, T. cbn. rewrite Tw, F. cbn. lia.
    + destruct body as [json|].
      * rewrite responseHandler_no_running_version by exact V.
        cbn. rewrite Tw, F. cbn. lia.
      * cbn. rewrite Tw, F. cbn. lia.
  - destruct (inFlight w) as [|n] eqn:F; [discriminate|]. intros [= <-].
    destruct (errorResponseHandler_rearms (answered w)) as (_ & T & Fl).
    rewrite T, Fl, length_app. cbn. rewrite F. cbn. lia.
Qed.

(** From page load on, at most one check is pending at any time: one
    armed timer or one request in flight, never both and never two. *)
Theorem check_loop_single_check es :
  forall w w', timers w = [] -> inFlight w = O ->
    run es (snd (main w)) = Some w' ->
    (List.length (timers w') + inFlight w' <= 1)%nat.
Proof.
  intros w w' T F.
  assert (C : calm (snd (main w))).
  { assert (F' : inFlight (snd (main w)) = inFlight w) by apply main_effects.
    assert (Tm : exists d, timers (snd (main w)) = (timers w ++ [d])%list) by apply main_effects.
    destruct Tm as [d Tm].
    unfold calm. rewrite Tm, F', T. cbn. lia. }
  revert C. generalize (snd (main w)). clear. induction es as [|e es IH]; intros w C; cbn.
  - intros [= <-]. exact C.
  - destruct (step e w) as [w1|] eqn:S; [|discriminate].
    apply IH. eapply step_calm; eassumption.
Qed.

Lemma check_loop_single_check_witness :
  exists w',
    run [TimerFired; Failed; TimerFired]
        (snd (main (boot 0 Config.empty [] None))) = Some w' /\
    (List.length (timers w') + inFlight w' <= 1)%nat.
Proof.
  eexists. split; [vm_compute; reflexivity|].
  apply (check_loop_single_check [TimerFired; Failed; TimerFired]
           (boot 0 Config.empty [] None)); [reflexivity | reflexivity |].
  vm_compute. reflexivity.
Defined.

(** The [load] listener arms the next check, 60000 ms ahead, exactly
    when it runs to its end with a running version; when it throws, or
    returns early for want of a running version, it arms nothing. *)
Theorem responseHandler_rearms_only_at_its_end (body : option Metadata) (w : world) :
  let r := fst (responseHandler body w) in
  let w' := snd (responseHandler body w) in
  (r = Ok tt /\ linkbotLabsVersion w <> None /\
   timers w' = (timers w ++ [60000])%list) \/
  (((exists e, r = Throw e) \/ linkbotLabsVersion w = None) /\
   timers w' = timers w).
Proof.
  cbv zeta. destruct (linkbotLabsVersion w) as [v|] eqn:V.
  - destruct (responseHandler_armsOnReturn body w) as [_ [[E T] | [E T]]].
    + congruence.
    + left. repeat split; [assumption | discriminate | assumption].
    + right. split; [now left | assumption].
  - right. destruct body as [json|].
    + rewrite responseHandler_no_running_version by exact V. cbn. auto.
    + rewrite responseHandler_not_json. cbn. split; [left; eauto | reflexivity].
Qed.

(** C2. The [error] listener re-arms after 10000 ms and a well-formed
    answer re-arms after 60000 ms; but a [load] whose handler returns
    early or throws arms nothing: with no running version, with a body
    that is no JSON (the page of a 404), and with a document that has
    no entry for the running version, the loop is left with no timer
    and no request. *)
Theorem check_loop_stalls_when_load_handler_fails :
  (exists w, run [TimerFired; Failed] (pageLoaded (Some labs123)) = Some w /\
             timers w = [10000] /\ inFlight w = O) /\
  (exists w, run [TimerFired; Loaded 200 (Some metadata446)]
                 (pageLoaded (Some labs123)) = Some w /\
             timers w = [60000] /\ inFlight w = O) /\
  (exists w, run [TimerFired; Loaded 200 (Some metadata446)] (pageLoaded None) = Some w /\
             stalled w) /\
  (exists w, run [TimerFired; Loaded 404 None] (pageLoaded (Some labs123)) = Some w /\
             stalled w) /\
  (exists w, run [TimerFired; Loaded 200 (Some metadata446)]
                 (pageLoaded (Some labs999)) = Some w /\
             stalled w).
Proof.
  repeat split; eexists; (split; [vm_compute; reflexivity|]);
    repeat split; reflexivity.
Qed.

(* ================================================================== *)
(** ** More on splitFilename *)

Lemma lastIndexOf_from_spec s c : forall k acc,
  (JsString.lastIndexOf_from s c k acc = acc /\ JsString.occurs c s = false) \/
  (exists pre post,
      s = (pre ++ String c post)%string /\
      JsString.lastIndexOf_from s c k acc = k + JsString.len pre /\
      JsString.occurs c post = false).
Proof.
  induction s as [|x s IH]; intros k acc; cbn [JsString.lastIndexOf_from JsString.occurs].
  - now left.
  - destruct (Ascii.eqb_spec x c) as [-> | Hx].
    + right. destruct (IH (k + 1) k) as [[E O] | (pre & post & -> & E & O)].
      * exists "", s. rewrite E. unfold JsString.len. cbn. split; [reflexivity|].
        split; [lia | assumption].
      * exists (String c pre), post. rewrite E. unfold JsString.len. cbn [String.length].
        split; [reflexivity|]. split; [lia | assumption].
    + destruct (IH (k + 1) acc) as [[E O] | (pre & post & -> & E & O)].
      * left. cbn. auto.
      * right. exists (String x pre), post. rewrite E. unfold JsString.len.
        cbn [String.length]. split; [reflexivity|]. split; [lia | assumption].
Qed.

Lemma substring_prefix pre x : substring 0 (String.length pre) (pre ++ x) = pre.
Proof. induction pre; cbn; [now destruct x | congruence]. Qed.

Lemma substring_suffix pre x :
  substring (String.length pre) (String.length x) (pre ++ x) = x.
Proof. induction pre; cbn; [apply substring_all | assumption]. Qed.

Lemma length_append a b : String.length (a ++ b) = (String.length a + String.length b)%nat.
Proof. induction a; cbn; congruence. Qed.

(** An extension, when there is one, is a dot followed by a part that
    holds no dot, and the stem before it is not empty; when there is
    none, the stem is the whole filename, which has no dot after its
    first character. *)
Theorem splitFilename_extension_shape (a : string) :
  match extension (splitFilename a) with
  | Some e =>
      exists r, e = String "."%char r /\ JsString.occurs "."%char r = false /\
                stem (splitFilename a) <> "" /\
                a = (stem (splitFilename a) ++ e)%string
  | None =>
      stem (splitFilename a) = a /\
      forall x r, a = String x r -> JsString.occurs "."%char r = false
  end.
Proof.
  unfold splitFilename, JsString.lastIndexOf.
  destruct (lastIndexOf_from_spec a "."%char 0 (-1)) as [[E O] | (pre & post & -> & E & O)];
    rewrite E.
  - change (-1 >? 0) with false. cbn [extension stem].
    split; [apply slice_whole|]. intros x r ->. cbn in O.
    now apply orb_false_iff in O.
  - unfold JsString.len in *. destruct pre as [|y pre].
    + change (0 + Z.of_nat (String.length "") >? 0) with false. cbn [extension stem].
      split; [apply slice_whole|]. intros x r [= <- <-]. exact O.
    + replace (0 + Z.of_nat (String.length (String y pre)) >? 0) with true
        by (symmetry; apply Z.gtb_lt; cbn [String.length]; lia).
      cbn [extension stem].
      assert (S1 : JsString.slice (String y pre ++ String "." post) 0
                     (Some (0 + Z.of_nat (String.length (String y pre)))) = String y pre).
      { unfold JsString.slice, JsString.relIndex, JsString.len.
        rewrite length_append. cbn [Z.ltb Z.compare].
        replace (_ <? 0) with false by (symmetry; apply Z.ltb_ge; lia).
        rewrite Z.min_l by lia. rewrite Z.min_l by lia.
        rewrite Z.sub_0_r, Z.max_l by lia.
        replace (Z.to_nat (0 + Z.of_nat (String.length (String y pre))))
          with (String.length (String y pre)) by lia.
        change (Z.to_nat 0) with 0%nat. apply substring_prefix. }
      assert (S2 : JsString.slice (String y pre ++ String "." post)
                     (0 + Z.of_nat (String.length (String y pre))) None = String "." post).
      { unfold JsString.slice, JsString.relIndex, JsString.len.
        rewrite length_append.
        replace (_ <? 0) with false by (symmetry; apply Z.ltb_ge; lia).
        rewrite Z.min_l by lia. rewrite Z.max_l by lia.
        replace (Z.to_nat (0 + Z.of_nat (String.length (String y pre))))
          with (String.length (String y pre)) by lia.
        replace (Z.to_nat _) with (String.length (String "." post)) by lia.
        apply substring_suffix. }
      rewrite S1, S2. exists post. repeat split; [assumption | discriminate].
Qed.

(* ================================================================== *)
(** ** More on firmwareFileStems and localVersionList *)

Lemma getOwn_put_any k k' v o :
  JsObject.getOwn k' (JsObject.put k v o) =
  if String.eqb k k' && negb (String.eqb k "__proto__")
  then Some v else JsObject.getOwn k' o.
Proof.
  unfold JsObject.put. destruct (String.eqb k "__proto__"); cbn.
  - now rewrite andb_false_r.
  - rewrite andb_true_r. apply getOwn_setOwn.
Qed.

Lemma getInt32_put_any k k' v o :
  JsObject.getInt32 k' (JsObject.put k v o) =
  if String.eqb k k' && negb (String.eqb k "__proto__")
  then v else JsObject.getInt32 k' o.
Proof.
  unfold JsObject.getInt32. rewrite getOwn_put_any. now destruct (_ && _).
Qed.

Lemma hasOwn_put_any k k' v o :
  JsObject.hasOwn k' (JsObject.put k v o) =
  (String.eqb k k' && negb (String.eqb k "__proto__")) || JsObject.hasOwn k' o.
Proof.
  unfold JsObject.hasOwn. rewrite getOwn_put_any. now destruct (_ && _).
Qed.

(** The keys of the roll call: one turn adds the stem of its file,
    unless that stem is [__proto__]. *)
Lemma hasOwn_rollCall fws file k :
  JsObject.hasOwn k (rollCall fws file) =
  (String.eqb (stem file) k && negb (String.eqb (stem file) "__proto__"))
  || JsObject.hasOwn k fws.
Proof.
  unfold rollCall. rewrite !hasOwn_put_any.
  destruct (JsObject.has _ fws); rewrite ?hasOwn_put_any;
    destruct (String.eqb (stem file) k && negb (String.eqb (stem file) "__proto__"));
    reflexivity.
Qed.

Lemma hasOwn_fold_rollCall l : forall fws k,
  JsObject.hasOwn k (fold_left rollCall l fws) = true <->
  JsObject.hasOwn k fws = true \/
  (k <> "__proto__" /\ exists f, In f l /\ stem f = k).
Proof.
  induction l as [|f l IH]; intros fws k; cbn [fold_left].
  - split; [auto | intros [H | (_ & f & [] & _)]; exact H].
  - rewrite IH, hasOwn_rollCall, orb_true_iff, andb_true_iff, negb_true_iff.
    rewrite String.eqb_eq, String.eqb_neq. split.
    + intros [[[E N] | H] | (N & g & Hg & E)].
      * right. subst k. split; [assumption|]. exists f. split; [now left | reflexivity].
      * now left.
      * right. split; [assumption|]. exists g. split; [now right | assumption].
    + intros [H | (N & g & [<- | Hg] & E)].
      * left. now right.
      * left. left. subst k. auto.
      * right. split; [assumption|]. eauto.
Qed.

Lemma hasOwn_rollCalled files k :
  JsObject.hasOwn k (rollCalled files) = true <->
  k <> "__proto__" /\ exists a, In a files /\ stem (splitFilename a) = k.
Proof.
  unfold rollCalled. rewrite hasOwn_fold_rollCall. split.
  - intros [H | (N & f & Hf & E)]; [discriminate H|].
    apply in_map_iff in Hf as (a & <- & Ha). eauto.
  - intros (N & a & Ha & E). right. split; [assumption|].
    exists (splitFilename a). split; [now apply in_map | assumption].
Qed.

Lemma seen_snoc files f s e :
  seen (files ++ [f]) s e =
  seen files s e || (String.eqb (stem f) s && (isExtension (extension f) e =? 1)).
Proof. unfold seen. rewrite existsb_app. cbn. now rewrite orb_false_r. Qed.

(** One turn of the roll call, whatever its guard does, sets no bit
    that its file does not justify. *)
Lemma rollCall_within files fws f :
  within files fws -> within (files ++ [f]) (rollCall fws f).
Proof.
  intros W s. destruct (W s) as (h & e & G & Hh & He).
  assert (Keep : JsObject.getInt32 s (rollCall fws f) = JsObject.getInt32 s fws ->
                 exists h e : bool,
                   JsObject.getInt32 s (rollCall fws f) = Z.b2z h + 2 * Z.b2z e /\
                   (h = true -> seen (files ++ [f]) s ".hex" = true) /\
                   (e = true -> seen (files ++ [f]) s ".eeprom" = true)).
  { intros E. exists h, e. rewrite E, !seen_snoc.
    repeat split; [assumption | |]; intros H; apply orb_true_iff; left; auto. }
  unfold rollCall in *. rewrite !getInt32_put_any in *.
  destruct (String.eqb (stem f) s && negb (String.eqb (stem f) "__proto__")) eqn:K;
    [|apply Keep; destruct (JsObject.has _ fws);
      [rewrite getInt32_put_any, K|]; reflexivity].
  apply andb_true_iff in K as [Ks Kp]. rewrite String.eqb_refl, Kp. cbn [andb].
  set (bh := isExtension (extension f) ".hex" =? 1).
  set (be := isExtension (extension f) ".eeprom" =? 1).
  assert (Bh : isExtension (extension f) ".hex" = Z.b2z bh).
  { subst bh. destruct (extension f) as [x|]; cbn; [|reflexivity].
    now destruct (String.eqb x ".hex"). }
  assert (Be : isExtension (extension f) ".eeprom" = Z.b2z be).
  { subst be. destruct (extension f) as [x|]; cbn; [|reflexivity].
    now destruct (String.eqb x ".eeprom"). }
  assert (Old : exists h0 e0 : bool,
             JsObject.getInt32 (stem f)
               (if JsObject.has (if String.eqb (stem f) "" then "true" else "false") fws
                then JsObject.put (stem f) 0 fws else fws) = Z.b2z h0 + 2 * Z.b2z e0 /\
             (h0 = true -> h = true) /\ (e0 = true -> e = true)).
  { destruct (JsObject.has _ fws).
    - exists false, false. rewrite getInt32_put_any, String.eqb_refl, Kp.
      repeat split; discriminate.
    - apply String.eqb_eq in Ks. rewrite Ks. exists h, e. auto. }
  destruct Old as (h0 & e0 & -> & Hh0 & He0).
  exists (h0 || bh), (e0 || be). rewrite !seen_snoc, Ks, Bh, Be. fold bh be. cbn [andb].
  repeat split.
  - destruct h0, e0, bh, be; reflexivity.
  - intros H. apply orb_true_iff in H as [H | H]; rewrite ?H, ?orb_true_r; auto.
    rewrite Hh; auto.
  - intros H. apply orb_true_iff in H as [H | H]; rewrite ?H, ?orb_true_r; auto.
    rewrite He; auto.
Qed.

Lemma fold_rollCall_within l : forall pre fws,
  within pre fws -> within (pre ++ l) (fold_left rollCall l fws).
Proof.
  induction l as [|f l IH]; intros pre fws W; cbn [fold_left].
  - now rewrite app_nil_r.
  - replace (pre ++ f :: l)%list with ((pre ++ [f]) ++ l)%list
      by (now rewrite <- app_assoc).
    apply IH. now apply rollCall_within.
Qed.

Lemma rollCalled_within files : within (map splitFilename files) (rollCalled files).
Proof.
  apply (fold_rollCall_within _ [] []). intros s. exists false, false.
  repeat split; discriminate.
Qed.

(** The second loop: it throws at its first key when [hasOwnProperty]
    is an own property, and filters the keys otherwise. *)
Lemma fold_collectStem_Throw fws keys e :
  fold_left (collectStem fws) keys (Throw e) = Throw e.
Proof. induction keys; cbn; auto. Qed.

Lemma firmwareFileStems_cases files :
  (JsObject.hasOwn "hasOwnProperty" (rollCalled files) = true /\
   firmwareFileStems files = Throw TypeError) \/
  (JsObject.hasOwn "hasOwnProperty" (rollCalled files) = false /\
   firmwareFileStems files =
     Ok (filter (fun k => JsObject.hasOwn k (rollCalled files)
                          && (JsObject.getInt32 k (rollCalled files) =? 3))
                (JsObject.forInKeys (rollCalled files)))).
Proof.
  unfold firmwareFileStems. fold (rollCalled files).
  destruct (JsObject.hasOwn "hasOwnProperty" (rollCalled files)) eqn:H.
  - left. split; [reflexivity|].
    assert (K : In "hasOwnProperty" (JsObject.forInKeys (rollCalled files))).
    { apply In_forInKeys. now apply hasOwn_In. }
    destruct (JsObject.forInKeys (rollCalled files)) as [|k keys]; [destruct K|].
    cbn [fold_left]. unfold collectStem at 2, JsObject.callHasOwnProperty.
    rewrite H. cbn. apply fold_collectStem_Throw.
  - right. split; [reflexivity|]. now rewrite (fold_collectStem _ _ H []).
Qed.

(** [firmwareFileStems] throws, and then a [TypeError], exactly when
    some listed file has the stem [hasOwnProperty]; otherwise it
    returns. *)
Theorem firmwareFileStems_throws_on_hasOwnProperty_stem (files : list string) :
  ((exists a, In a files /\ stem (splitFilename a) = "hasOwnProperty") <->
   firmwareFileStems files = Throw TypeError) /\
  ((forall a, In a files -> stem (splitFilename a) <> "hasOwnProperty") <->
   exists stems, firmwareFileStems files = Ok stems).
Proof.
  assert (K : JsObject.hasOwn "hasOwnProperty" (rollCalled files) = true <->
              exists a, In a files /\ stem (splitFilename a) = "hasOwnProperty").
  { rewrite hasOwn_rollCalled. split; [now intros [_ H] | intros H].
    split; [discriminate | assumption]. }
  destruct (firmwareFileStems_cases files) as [[H ->] | [H ->]]; split; split.
  - reflexivity.
  - intros _. now apply K.
  - intros N. apply K in H as (a & Ha & E). now destruct (N a Ha).
  - intros (stems & [=]).
  - intros E. apply K in E. congruence.
  - discriminate.
  - eauto.
  - intros _ a Ha E. assert (T : JsObject.hasOwn "hasOwnProperty" (rollCalled files) = true)
      by (apply K; eauto). congruence.
Qed.

Lemma firmwareFileStems_sound (files stems : list string) (s : string) :
  firmwareFileStems files = Ok stems -> In s stems -> completeStem files s.
Proof.
  intros E Hs. destruct (firmwareFileStems_cases files) as [[_ T] | [_ T]];
    rewrite T in E; [discriminate|]. injection E as <-.
  apply filter_In in Hs as [_ Hs]. apply andb_true_iff in Hs as [_ Hs].
  apply Z.eqb_eq in Hs.
  destruct (rollCalled_within files s) as (h & e & G & Hh & He).
  rewrite G in Hs. unfold completeStem. rewrite <- !seen_hasFile.
  destruct h, e; cbn in Hs; try lia. auto.
Qed.

(** *** No stem is returned twice *)

Lemma keys_setOwn k v o :
  map fst (JsObject.setOwn k v o) =
  if JsObject.hasOwn k o then map fst o else (map fst o ++ [k])%list.
Proof.
  unfold JsObject.hasOwn. induction o as [|[k0 v0] o IH]; cbn; [reflexivity|].
  destruct (String.eqb k k0); cbn; [reflexivity|].
  rewrite IH. now destruct (JsObject.getOwn k o).
Qed.

Lemma NoDup_keys_put k v o :
  NoDup (map fst o) -> NoDup (map fst (JsObject.put k v o)).
Proof.
  intros N. unfold JsObject.put. destruct (String.eqb k "__proto__"); [assumption|].
  rewrite keys_setOwn. destruct (JsObject.hasOwn k o) eqn:H; [assumption|].
  apply NoDup_app; [assumption | repeat constructor; intros [] |].
  intros a Ha [<- | []]. apply hasOwn_In in Ha. congruence.
Qed.

Lemma NoDup_keys_rollCall fws f :
  NoDup (map fst fws) -> NoDup (map fst (rollCall fws f)).
Proof.
  intros N. unfold rollCall. do 2 apply NoDup_keys_put.
  destruct (JsObject.has _ fws); [now apply NoDup_keys_put | assumption].
Qed.

Lemma NoDup_keys_rollCalled files : NoDup (map fst (rollCalled files)).
Proof.
  unfold rollCalled. generalize (map splitFilename files) as l.
  assert (G : forall l fws, NoDup (map fst fws) ->
                            NoDup (map fst (fold_left rollCall l fws))).
  { induction l as [|f l IH]; intros fws N; cbn; [assumption|].
    apply IH. now apply NoDup_keys_rollCall. }
  intros l. apply G. constructor.
Qed.

Lemma In_snd_insertIndex k e l :
  In k (map snd (JsObject.insertIndex e l)) <-> k = snd e \/ In k (map snd l).
Proof.
  rewrite !in_map_iff. split.
  - intros (x & <- & H). apply In_insertIndex in H as [-> | H]; [now left|].
    right. eauto.
  - intros [-> | (x & <- & H)].
    + exists e. split; [reflexivity|]. apply In_insertIndex. now left.
    + exists x. split; [reflexivity|]. apply In_insertIndex. now right.
Qed.

Lemma NoDup_snd_insertIndex e l :
  NoDup (map snd l) -> ~ In (snd e) (map snd l) ->
  NoDup (map snd (JsObject.insertIndex e l)).
Proof.
  induction l as [|x l IH]; intros N H; cbn.
  - constructor; [intros [] | constructor].
  - destruct (fst e <=? fst x)%N; cbn.
    + constructor; assumption.
    + inversion N as [|? ? Hx N']; subst. constructor.
      * rewrite In_snd_insertIndex. intros [E | H']; [|contradiction].
        apply H. left. auto.
      * apply IH; [assumption|]. intros H'. apply H. now right.
Qed.

Lemma NoDup_indexKeys ks : NoDup ks -> NoDup (map snd (JsObject.indexKeys ks)).
Proof.
  unfold JsObject.indexKeys. induction 1 as [|k ks Hk N IH]; cbn; [constructor|].
  destruct (JsObject.arrayIndex k) as [n|]; [|assumption].
  apply NoDup_snd_insertIndex; [assumption|]. cbn. intros H. apply Hk.
  apply in_map_iff in H as ([m k'] & E & H). cbn in E. subst k'.
  now apply In_indexKeys in H.
Qed.

Lemma NoDup_forInKeys o : NoDup (map fst o) -> NoDup (JsObject.forInKeys o).
Proof.
  intros N. unfold JsObject.forInKeys. apply NoDup_app.
  - now apply NoDup_indexKeys.
  - now apply NoDup_filter.
  - intros k H1 H2. apply in_map_iff in H1 as ([n k'] & E & H1). cbn in E. subst k'.
    apply In_indexKeys in H1 as [_ H1]. apply filter_In in H2 as [_ H2].
    unfold JsObject.isNamed in H2. now rewrite H1 in H2.
Qed.

(** Whatever the listing, a stem that [firmwareFileStems] returns has
    both a [.hex] and an [.eeprom] file, and no stem is returned
    twice. *)
Theorem firmwareFileStems_returns_complete_stems_once (files stems : list string) :
  firmwareFileStems files = Ok stems ->
  NoDup stems /\ forall s, In s stems -> completeStem files s.
Proof.
  intros E. split; [|intros s; now apply firmwareFileStems_sound].
  destruct (firmwareFileStems_cases files) as [[_ T] | [_ T]];
    rewrite T in E; [discriminate|]. injection E as <-.
  apply NoDup_filter, NoDup_forInKeys, NoDup_keys_rollCalled.
Qed.

Lemma firmwareFileStems_returns_complete_stems_once_witness :
  NoDup ["v2"; "d"] /\
  forall s, In s ["v2"; "d"] ->
            completeStem ["v2.hex"; "d.hex"; "x.hex"; "d.eeprom"; "v2.eeprom"] s.
Proof.
  apply (firmwareFileStems_returns_complete_stems_once
           ["v2.hex"; "d.hex"; "x.hex"; "d.eeprom"; "v2.eeprom"] ["v2"; "d"]).
  reflexivity.
Defined.


(** *** After a file with the stem [false] *)

Lemma rollCall_after_false fws f s :
  JsObject.hasOwn "false" fws = true ->
  JsObject.hasOwn "__proto__" fws = false ->
  s <> "" ->
  JsObject.getInt32 s fws <> 3 \/ stem f = s ->
  JsObject.getInt32 s (rollCall fws f) <> 3.
Proof.
  intros F P Hs H. unfold rollCall. rewrite !getInt32_put_any.
  destruct (String.eqb (stem f) s && negb (String.eqb (stem f) "__proto__")) eqn:K.
  - apply andb_true_iff in K as [Ks Kp]. apply String.eqb_eq in Ks.
    rewrite String.eqb_refl, Kp. cbn [andb].
    destruct (String.eqb_spec (stem f) ""); [congruence|].
    unfold JsObject.has. rewrite F. cbn [orb].
    rewrite getInt32_put_any, String.eqb_refl, Kp. cbn [andb].
    destruct (extension f) as [x|]; cbn [isExtension]; [|discriminate].
    destruct (String.eqb_spec x ".hex") as [-> | ?]; cbn; [discriminate|].
    destruct (String.eqb x ".eeprom"); discriminate.
  - assert (E : JsObject.getInt32 s
                  (if JsObject.has (if String.eqb (stem f) "" then "true" else "false") fws
                   then JsObject.put (stem f) 0 fws else fws) = JsObject.getInt32 s fws).
    { destruct (JsObject.has _ fws); [|reflexivity]. now rewrite getInt32_put_any, K. }
    rewrite E. destruct H as [H | H]; [assumption|]. subst s.
    rewrite String.eqb_refl in K. cbn in K. apply negb_false_iff, String.eqb_eq in K.
    rewrite K, (getInt32_not_own _ _ P). discriminate.
Qed.

Lemma fold_rollCall_after_false l : forall fws s,
  JsObject.hasOwn "false" fws = true ->
  JsObject.hasOwn "__proto__" fws = false ->
  s <> "" ->
  JsObject.getInt32 s fws <> 3 \/ (exists g, In g l /\ stem g = s) ->
  JsObject.getInt32 s (fold_left rollCall l fws) <> 3.
Proof.
  induction l as [|f l IH]; intros fws s F P Hs H; cbn [fold_left].
  - destruct H as [H | (g & [] & _)]. exact H.
  - apply IH; [| |assumption|].
    + rewrite hasOwn_rollCall, F. apply orb_true_r.
    + rewrite hasOwn_rollCall, P. now destruct (String.eqb (stem f) "__proto__").
    + destruct H as [H | (g & [<- | Hg] & E)].
      * left. apply rollCall_after_false; auto.
      * left. apply rollCall_after_false; auto.
      * right. eauto.
Qed.

(** Once a file with the stem [false] is listed, the stem of no later
    file is returned, complete or not. *)
Theorem firmwareFileStems_drops_stems_listed_after_false
    (pre post : list string) (f a : string) (stems : list string) :
  stem (splitFilename f) = "false" ->
  firmwareFileStems (pre ++ f :: post) = Ok stems ->
  In a post ->
  ~ In (stem (splitFilename a)) stems.
Proof.
  intros Hf E Ha Hs.
  destruct (firmwareFileStems_cases (pre ++ f :: post)) as [[_ T] | [_ T]];
    rewrite T in E; [discriminate|]. injection E as <-.
  apply filter_In in Hs as [_ Hs]. apply andb_true_iff in Hs as [_ Hs].
  apply Z.eqb_eq in Hs. revert Hs.
  destruct (String.eqb_spec (stem (splitFilename a)) "") as [E0 | N0].
  - rewrite E0.
    destruct (rollCalled_within (pre ++ f :: post) "") as (h & e & -> & Hh & _).
    destruct h; [|destruct e; discriminate].
    specialize (Hh eq_refl). apply seen_hasFile in Hh as (b & _ & Hb).
    pose proof (splitFilename_empty_stem b) as X. rewrite Hb in X.
    discriminate (X eq_refl).
  - replace (pre ++ f :: post)%list with ((pre ++ [f]) ++ post)%list
      by (now rewrite <- app_assoc).
    unfold rollCalled at 1. rewrite map_app, fold_left_app. fold (rollCalled (pre ++ [f])).
    apply fold_rollCall_after_false; [| |assumption|].
    + apply hasOwn_rollCalled. split; [discriminate|].
      exists f. split; [apply in_or_app; right; now left | assumption].
    + destruct (JsObject.hasOwn "__proto__" (rollCalled (pre ++ [f]))) eqn:P; [|reflexivity].
      apply hasOwn_rollCalled in P as [P _]. now destruct P.
    + right. exists (splitFilename a). split; [now apply in_map | reflexivity].
Qed.

Lemma firmwareFileStems_drops_stems_listed_after_false_witness :
  ~ In (stem (splitFilename "d.eeprom")) ["v1"].
Proof.
  apply (firmwareFileStems_drops_stems_listed_after_false
           ["v1.hex"; "v1.eeprom"] ["d.hex"; "d.eeprom"] "false.txt" "d.eeprom" ["v1"]).
  - reflexivity.
  - reflexivity.
  - cbn. auto.
Defined.


(** *** Local versions have their files *)

(** Every version that [localVersionList()] returns was read off a
    stem [v...] whose [.hex] and [.eeprom] files are both listed. *)
Theorem localVersionList_versions_have_both_files
    (files : list string) (vs : list Version.t) (v : Version.t) :
  localVersionList files = Ok vs -> In v vs ->
  exists r, completeStem files (String "v" r) /\
            Version.fromString (Some r) = Some v.
Proof.
  unfold localVersionList. destruct (firmwareFileStems files) as [stems|] eqn:E;
    cbn; [|discriminate].
  intros [= <-]. rewrite map_map, In_filterBoolean. intros (s & Hs & Hv).
  destruct (dropV s) as [r|] eqn:D; [|discriminate Hv].
  apply dropV_Some in D. subst s. exists r. split; [|assumption].
  eapply firmwareFileStems_sound; eassumption.
Qed.

Lemma localVersionList_versions_have_both_files_witness :
  exists r, completeStem ["v1.0.0.hex"; "v1.0.0.eeprom"; "v2.0.0.hex"] (String "v" r) /\
            Version.fromString (Some r) = Some v100.
Proof.
  apply (localVersionList_versions_have_both_files
           ["v1.0.0.hex"; "v1.0.0.eeprom"; "v2.0.0.hex"] [v100] v100).
  - reflexivity.
  - now left.
Defined.

(** A version that [latestVersion()] returns is in the list that
    [localVersionList()] returns, and the [.hex] and [.eeprom] files
    of a stem [v...] that reads as that version are both listed, for
    any [Version.max] that returns one of its two arguments; and when
    that list is not empty, [startUpdater] flashes such a version. *)
Theorem latestVersion_returns_a_stocked_version
    (vmax : Version.t -> Version.t -> Version.t) :
  (forall a b, vmax a b = a \/ vmax a b = b) ->
  (forall files lrfv v,
      latestVersionWith vmax files lrfv = Ok (Some v) ->
      (exists vs, localVersionList files = Ok vs /\ In v vs) /\
      exists r, completeStem files (String "v" r) /\
                Version.fromString (Some r) = Some v) /\
  (forall w vs,
      localVersionList (firmwareFiles w) = Ok vs -> vs <> [] ->
      exists v r,
        In v vs /\
        completeStem (firmwareFiles w) (String "v" r) /\
        Version.fromString (Some r) = Some v /\
        startUpdater w =
          (Ok tt,
           emit (FirmwareUpdate (Some v)
                   ("v" ++ Version.toString v ++ ".hex")
                   ("v" ++ Version.toString v ++ ".eeprom")) w)).
Proof.
  intros Hmax.
  assert (Stock : forall files vs v,
             localVersionList files = Ok vs -> In v vs ->
             exists r, completeStem files (String "v" r) /\
                       Version.fromString (Some r) = Some v).
  { intros files vs v. unfold localVersionList.
    destruct (firmwareFileStems files) as [stems|] eqn:E; cbn; [|discriminate].
    intros [= <-]. rewrite map_map, In_filterBoolean. intros (s & Hs & Hv).
    destruct (dropV s) as [r|] eqn:D; [|discriminate Hv].
    apply dropV_Some in D. subst s. exists r. split; [|assumption].
    eapply firmwareFileStems_sound; eassumption. }
  destruct (latestVersionWith_returns_local vmax Hmax) as [Local Flash]. split.
  - intros files lrfv v H.
    destruct (localVersionList files) as [vs|e] eqn:L.
    + pose proof (Local files lrfv vs v L H) as Hin.
      split; [now exists vs | now apply (Stock files vs)].
    + unfold latestVersionWith in H. rewrite L in H. discriminate H.
  - intros w vs L Hne. destruct (Flash w vs L Hne) as (v & Hin & E).
    destruct (Stock _ _ _ L Hin) as (r & Hc & Hr).
    exists v, r. auto.
Qed.

Lemma latestVersion_returns_a_stocked_version_witness :
  ((exists vs,
      localVersionList ["v1.0.0.hex"; "v1.0.0.eeprom"; "v2.0.0.hex"; "v2.0.0.eeprom"] =
        Ok vs /\ In v100 vs) /\
   exists r,
     completeStem ["v1.0.0.hex"; "v1.0.0.eeprom"; "v2.0.0.hex"; "v2.0.0.eeprom"]
                  (String "v" r) /\
     Version.fromString (Some r) = Some v100) /\
  exists v r,
    In v [v100] /\
    completeStem (firmwareFiles (boot 0 Config.empty ["v1.0.0.hex"; "v1.0.0.eeprom"] None))
                 (String "v" r) /\
    Version.fromString (Some r) = Some v /\
    startUpdater (boot 0 Config.empty ["v1.0.0.hex"; "v1.0.0.eeprom"] None) =
      (Ok tt,
       emit (FirmwareUpdate (Some v)
               ("v" ++ Version.toString v ++ ".hex")
               ("v" ++ Version.toString v ++ ".eeprom"))
         (boot 0 Config.empty ["v1.0.0.hex"; "v1.0.0.eeprom"] None)).
Proof.
  split.
  - apply (proj1 (latestVersion_returns_a_stocked_version Version.max Version_max_either)
             ["v1.0.0.hex"; "v1.0.0.eeprom"; "v2.0.0.hex"; "v2.0.0.eeprom"]
             (Some "1.0.0") v100).
    reflexivity.
  - apply (proj2 (latestVersion_returns_a_stocked_version Version.max Version_max_either)
             (boot 0 Config.empty ["v1.0.0.hex"; "v1.0.0.eeprom"] None) [v100]).
    + reflexivity.
    + discriminate.
Defined.


(* ================================================================== *)
(** ** More on the listeners *)

Lemma downloads_emit e w :
  downloads (emit e w) = (downloads w ++ (if isSave e then [e] else []))%list.
Proof. unfold downloads. cbn. rewrite filter_app. cbn. now destruct (isSave e). Qed.

Lemma scheduleFirmwareUpdateCheck_keeps d w :
  downloads (snd (scheduleFirmwareUpdateCheck d w)) = downloads w /\
  Config.latestRemoteFirmwareVersion (config (snd (scheduleFirmwareUpdateCheck d w))) =
    Config.latestRemoteFirmwareVersion (config w).
Proof.
  unfold scheduleFirmwareUpdateCheck, bind, console_log, Date_now,
    config_set_nextCheck, writeConfig, console_warn, setTimeout, ret.
  cbn. destruct (setOk w (sets w)); cbn; unfold downloads; cbn;
    rewrite ?filter_app; cbn; rewrite ?app_nil_r; auto.
Qed.

Lemma bind_Ok_inv {A B} (m : M A) (k : A -> M B) w b w' :
  bind m k w = (Ok b, w') ->
  exists a w1, m w = (Ok a, w1) /\ k a w1 = (Ok b, w').
Proof.
  unfold bind. destruct (m w) as [[a | e] w1]; [eauto | discriminate].
Qed.

Lemma ofDefined_Ok_inv {A} (x : option A) w a w1 :
  ofDefined x w = (Ok a, w1) -> x = Some a /\ w1 = w.
Proof. destruct x; cbn; [intros [= -> ->]; auto | discriminate]. Qed.

Lemma md5Entry_Ok_inv json name w e w1 :
  md5Entry json name w = (Ok e, w1) ->
  w1 = w /\ forall w0, md5Entry json name w0 = (Ok e, w0).
Proof.
  unfold md5Entry, bind, ofDefined, ret, raise.
  destruct (firmware_md5sums json) as [sums|]; cbv beta iota; [|discriminate].
  destruct (lookup name sums) as [x|]; cbv beta iota.
  - intros [= -> ->]. auto.
  - destruct (existsb _ _); cbv beta iota; [|discriminate]. intros [= <- ->]. auto.
Qed.

(** When the [load] listener runs to its end, the metadata lists a
    first firmware for the running version with an entry of checksums;
    that name is what a successful write persisted as
    [latestRemoteFirmwareVersion]; and the listener requested its
    [.hex] and its [.eeprom], in that order and with their checksums,
    if the version was not in stock, and nothing if it was. *)
Theorem responseHandler_downloads_only_missing
    (json : Metadata) (w : world) (v : LabsVersion) :
  linkbotLabsVersion w = Some v ->
  fst (responseHandler (Some json) w) = Ok tt ->
  exists table name rest e stocked,
    linkbotlabs_firmware json = Some table /\
    lookup (labsKey v) table = Some (name :: rest) /\
    fst (md5Entry json name w) = Ok e /\
    localVersionExists (firmwareFiles w) (Version.ofParts (JsString.split "."%char name))
      = Ok stocked /\
    downloads (snd (responseHandler (Some json) w)) =
      (downloads w ++
       if stocked then []
       else [SaveFirmwareFile
               ("http://" ++ locationHost w ++ "/firmware/v" ++ name ++ ".hex") (hex e);
             SaveFirmwareFile
               ("http://" ++ locationHost w ++ "/firmware/v" ++ name ++ ".eeprom")
               (eeprom e)])%list /\
    (setOk w (sets w) = true ->
     Config.latestRemoteFirmwareVersion (config (snd (responseHandler (Some json) w)))
       = Some name).
Proof.
  intros V H. destruct (responseHandler (Some json) w) as [r w'] eqn:R.
  cbn [fst snd] in *. subst r. unfold responseHandler in R.
  apply bind_Ok_inv in R as (j & w1 & [= <- <-] & R).
  apply bind_Ok_inv in R as (x & w1 & [= <- <-] & R). rewrite V in R.
  apply bind_Ok_inv in R as (table & w1 & [T ->]%ofDefined_Ok_inv & R).
  fold (labsKey v) in R.
  apply bind_Ok_inv in R as (firmwareArray & w1 & [L ->]%ofDefined_Ok_inv & R).
  apply bind_Ok_inv in R as (ok & w1 & R1 & R).
  apply bind_Ok_inv in R as (u1 & w2 & R2 & R).
  apply bind_Ok_inv in R as (u2 & w3 & R3 & R).
  apply bind_Ok_inv in R as (e1 & w4 & [-> M1]%md5Entry_Ok_inv & R).
  apply bind_Ok_inv in R as (u3 & w5 & R5 & R).
  apply bind_Ok_inv in R as (e2 & w6 & [-> M2]%md5Entry_Ok_inv & R).
  apply bind_Ok_inv in R as (u4 & w7 & R7 & R).
  apply bind_Ok_inv in R as (name & w8 & [F ->]%ofDefined_Ok_inv & R).
  apply bind_Ok_inv in R as (files & w9 & [= <- <-] & R).
  apply bind_Ok_inv in R as (stocked & w10 & [= S <-] & R).
  apply bind_Ok_inv in R as (u5 & w11 & R11 & R).
  destruct firmwareArray as [|name' rest]; cbn in F; [discriminate|].
  injection F as ->. cbn [hd_error text] in *.
  exists table, name, rest, e1, stocked.
  assert (W7 : downloads w7 = downloads w /\ firmwareFiles w7 = firmwareFiles w /\
               locationHost w7 = locationHost w /\
               (setOk w (sets w) = true ->
                Config.latestRemoteFirmwareVersion (config w7) = Some name)).
  { injection R7 as _ <-. injection R5 as _ <-. injection R3 as _ <-.
    unfold config_set_latestRemoteFirmwareVersion, writeConfig in R1.
    injection R1 as <- <-.
    destruct (setOk w (sets w)); injection R2 as _ <-;
      unfold downloads; cbn; rewrite ?filter_app; cbn; rewrite ?app_nil_r;
      repeat split; auto; discriminate. }
  destruct W7 as (D7 & F7 & H7 & C7). rewrite F7 in S.
  assert (W' : downloads w' = downloads w11 /\
               Config.latestRemoteFirmwareVersion (config w') =
               Config.latestRemoteFirmwareVersion (config w11)).
  { pose proof (scheduleFirmwareUpdateCheck_keeps CHECK_INTERVAL w11) as K.
    rewrite R in K. exact K. }
  destruct W' as [D' C'].
  split; [assumption|]. split; [assumption|].
  split; [now rewrite (M1 w)|]. split; [assumption|].
  rewrite D', C'. clear R D' C'.
  destruct stocked.
  - injection R11 as _ <-. rewrite D7, app_nil_r. auto.
  - apply bind_Ok_inv in R11 as (h1 & w12 & [= <- <-] & R11).
    apply bind_Ok_inv in R11 as (e3 & w13 & [-> M3]%md5Entry_Ok_inv & R11).
    apply bind_Ok_inv in R11 as (u6 & w14 & [= _ <-] & R11).
    apply bind_Ok_inv in R11 as (h2 & w15 & [= <- <-] & R11).
    apply bind_Ok_inv in R11 as (e4 & w16 & [-> M4]%md5Entry_Ok_inv & R11).
    injection R11 as _ <-.
    assert (e3 = e1) by (specialize (M3 w); specialize (M1 w); congruence).
    assert (e4 = e1) by (specialize (M4 w); specialize (M1 w); congruence).
    subst e3 e4. rewrite !downloads_emit. cbn [isSave]. cbn [locationHost emit].
    rewrite D7, H7, <- app_assoc. split; [reflexivity|]. exact C7.
Qed.

Lemma responseHandler_downloads_only_missing_witness :
  exists table name rest e stocked,
    linkbotlabs_firmware metadata446 = Some table /\
    lookup (labsKey labs123) table = Some (name :: rest) /\
    fst (md5Entry metadata446 name (boot 0 Config.empty [] (Some labs123))) = Ok e /\
    localVersionExists (firmwareFiles (boot 0 Config.empty [] (Some labs123)))
      (Version.ofParts (JsString.split "."%char name)) = Ok stocked /\
    downloads (snd (responseHandler (Some metadata446)
                      (boot 0 Config.empty [] (Some labs123)))) =
      (downloads (boot 0 Config.empty [] (Some labs123)) ++
       if stocked then []
       else [SaveFirmwareFile
               ("http://" ++ locationHost (boot 0 Config.empty [] (Some labs123)) ++
                "/firmware/v" ++ name ++ ".hex") (hex e);
             SaveFirmwareFile
               ("http://" ++ locationHost (boot 0 Config.empty [] (Some labs123)) ++
                "/firmware/v" ++ name ++ ".eeprom") (eeprom e)])%list /\
    (setOk (boot 0 Config.empty [] (Some labs123))
           (sets (boot 0 Config.empty [] (Some labs123))) = true ->
     Config.latestRemoteFirmwareVersion
       (config (snd (responseHandler (Some metadata446)
                       (boot 0 Config.empty [] (Some labs123))))) = Some name).
Proof.
  apply (responseHandler_downloads_only_missing metadata446
           (boot 0 Config.empty [] (Some labs123)) labs123).
  - reflexivity.
  - vm_compute. reflexivity.
Defined.


Lemma bind_Ok {A B} (m : M A) (k : A -> M B) w a w1 :
  m w = (Ok a, w1) -> bind m k w = k a w1.
Proof. intros E. unfold bind. now rewrite E. Qed.

Lemma bind_Throw {A B} (m : M A) (k : A -> M B) w e w1 :
  m w = (Throw e, w1) -> bind m k w = (Throw e, w1).
Proof. intros E. unfold bind. now rewrite E. Qed.

Lemma md5Entry_pure json name w w0 :
  md5Entry json name w0 = (fst (md5Entry json name w), w0).
Proof.
  unfold md5Entry, bind, ofDefined, ret, raise.
  destruct (firmware_md5sums json) as [sums|]; cbv beta iota; [|reflexivity].
  destruct (lookup name sums); cbv beta iota; [reflexivity|].
  destruct (existsb _ _); reflexivity.
Qed.

(** The [load] listener persists the recommended firmware before it
    reads the checksums: when the metadata has no checksums for it,
    the listener throws, arms no timer and requests no download, but a
    successful write has already replaced [latestRemoteFirmwareVersion]. *)
Theorem responseHandler_persists_before_it_fails
    (json : Metadata) (w : world) (v : LabsVersion)
    (table : list (string * list string)) (name : string) (rest : list string)
    (e : exn) :
  linkbotLabsVersion w = Some v ->
  linkbotlabs_firmware json = Some table ->
  lookup (labsKey v) table = Some (name :: rest) ->
  fst (md5Entry json name w) = Throw e ->
  let w' := snd (responseHandler (Some json) w) in
  fst (responseHandler (Some json) w) = Throw e /\
  timers w' = timers w /\
  downloads w' = downloads w /\
  (setOk w (sets w) = true ->
   Config.latestRemoteFirmwareVersion (config w') = Some name).
Proof.
  intros V T L M. unfold responseHandler.
  erewrite bind_Ok by reflexivity. erewrite bind_Ok by reflexivity. rewrite V.
  erewrite bind_Ok by (rewrite T; reflexivity).
  fold (labsKey v). erewrite bind_Ok by (rewrite L; reflexivity).
  erewrite bind_Ok by reflexivity.
  cbn [hd_error text].
  destruct (setOk w (sets w)) eqn:Hok.
  - erewrite bind_Ok by reflexivity. erewrite bind_Ok by reflexivity.
    erewrite bind_Throw by (rewrite (md5Entry_pure json name w), M; reflexivity).
    cbn. unfold downloads. cbn. rewrite !filter_app. cbn. rewrite !app_nil_r. auto.
  - erewrite bind_Ok by reflexivity. erewrite bind_Ok by reflexivity.
    erewrite bind_Throw by (rewrite (md5Entry_pure json name w), M; reflexivity).
    cbn. unfold downloads. cbn. rewrite !filter_app. cbn. rewrite !app_nil_r.
    repeat split. discriminate.
Qed.

Lemma responseHandler_persists_before_it_fails_witness :
  fst (responseHandler (Some metadataNoSums) (boot 0 Config.empty [] (Some labs123)))
    = Throw TypeError /\
  timers (snd (responseHandler (Some metadataNoSums)
                 (boot 0 Config.empty [] (Some labs123)))) = [] /\
  downloads (snd (responseHandler (Some metadataNoSums)
                    (boot 0 Config.empty [] (Some labs123)))) = [] /\
  (true = true ->
   Config.latestRemoteFirmwareVersion
     (config (snd (responseHandler (Some metadataNoSums)
                     (boot 0 Config.empty [] (Some labs123))))) = Some "4.4.6").
Proof.
  apply (responseHandler_persists_before_it_fails metadataNoSums
           (boot 0 Config.empty [] (Some labs123)) labs123
           [("1.2.3", ["4.4.6"])] "4.4.6" [] TypeError); reflexivity.
Defined.


(* ================================================================== *)
(** ** More on the update trigger and the check loop *)

(** *** startUpdater *)

(** [startUpdater()] throws a [TypeError] before it calls the bridge
    exactly when there is no local version to flash: the list of local
    versions is empty, or listing them throws. *)
Theorem startUpdater_throws_without_local_versions (w : world) :
  (forall v vs, localVersionList (firmwareFiles w) <> Ok (v :: vs)) <->
  startUpdater w = (Throw TypeError, w).
Proof.
  unfold startUpdater, bind, listFirmwareFiles, config_get, lift, firmwareUpdate.
  destruct (localVersionList (firmwareFiles w)) as [[|v vs]|e] eqn:L.
  - unfold latestVersion. rewrite (latestVersionWith_unfold _ _ _ _ L). cbn.
    split; [reflexivity | discriminate].
  - destruct (latestVersion_returns_local _
                (Config.latestRemoteFirmwareVersion (config w)) _ L) as (x & _ & ->);
      [discriminate|].
    split; [intros H; now destruct (H v vs) | discriminate].
  - unfold latestVersion, latestVersionWith. rewrite L. cbn.
    split; [intros _ | discriminate].
    unfold localVersionList in L. destruct (firmwareFileStems (firmwareFiles w)) eqn:F;
      cbn in L; [discriminate|].
    injection L as <-.
    destruct (firmwareFileStems_cases (firmwareFiles w)) as [[_ T] | [_ T]]; congruence.
Qed.

(** *** The check loop *)

Lemma run_app es1 es2 w :
  run (es1 ++ es2) w =
  match run es1 w with
  | Some w1 => run es2 w1
  | None => None
  end.
Proof.
  revert w. induction es1 as [|e es1 IH]; intros w; cbn; [reflexivity|].
  destruct (step e w); [apply IH | reflexivity].
Qed.

(** From page load on, the loop can only come to rest, with no timer
    armed and no request in flight, in the [load] listener: the last
    event before such a state is a response that arrived. *)
Theorem check_loop_stalls_only_in_load_listener
    (es : list event) (w w' : world) :
  timers w = [] -> inFlight w = O ->
  run es (snd (main w)) = Some w' -> stalled w' ->
  exists es0 status body, es = (es0 ++ [Loaded status body])%list.
Proof.
  intros T F R [St Sf]. revert R.
  induction es as [|e es0 _] using rev_ind; intros R.
  - injection R as <-. destruct (main_effects w) as [_ [d Td]].
    rewrite Td in St. now destruct (timers w).
  - rewrite run_app in R. destruct (run es0 (snd (main w))) as [w1|]; [|discriminate].
    cbn [run] in R. destruct (step e w1) as [w2|] eqn:E; [|discriminate].
    injection R as ->.
    destruct e as [|status body|]; cbn [step] in E.
    + destruct (timers w1); [discriminate|]. injection E as <-. discriminate Sf.
    + eauto.
    + destruct (inFlight w1); [discriminate|]. injection E as <-.
      destruct (errorResponseHandler_rearms (answered w1)) as (_ & Te & _).
      rewrite Te in St. now destruct (timers (answered w1)).
Qed.

Lemma check_loop_stalls_only_in_load_listener_witness :
  exists es0 status body,
    [TimerFired; Loaded 404 None] = (es0 ++ [Loaded status body])%list.
Proof.
  eapply (check_loop_stalls_only_in_load_listener [TimerFired; Loaded 404 None]
            (boot 0 Config.empty [] None)).
  - reflexivity.
  - reflexivity.
  - vm_compute. reflexivity.
  - split; reflexivity.
Defined.


Lemma main_arms_clamped w :
  exists d, 0 <= d <= 60000 /\ timers (snd (main w)) = (timers w ++ [d])%list.
Proof.
  unfold main, initialDelay, bind, config_get, Date_now, ret, CHECK_INTERVAL.
  cbv beta iota.
  destruct (Config.nextCheck (config w)) as [t|]; cbv beta iota;
    match goal with
    | |- context [scheduleFirmwareUpdateCheck ?d ?w0] =>
        exists d; split; [apply clamp_range; lia|];
        destruct (scheduleFirmwareUpdateCheck_effects d w0) as (_ & _ & -> & _)
    end; reflexivity.
Qed.

Lemma step_prompt e w w' : prompt w -> step e w = Some w' -> prompt w'.
Proof.
  unfold prompt. intros P. destruct e as [|status body|]; cbn [step].
  - destruct (timers w) as [|d ts] eqn:T; [discriminate|]. intros [= <-].
    cbn. rewrite T. now inversion P.
  - destruct (inFlight w); [discriminate|]. intros [= <-].
    destruct (linkbotLabsVersion w) as [v|] eqn:V.
    + destruct (responseHandler_armsOnReturn body (answered w)) as [_ [[_ T] | [_ T]]];
        [cbn; congruence | |]; rewrite T; cbn [timers answered]; [|assumption].
      apply Forall_app. split; [assumption|]. repeat constructor; lia.
    + destruct body as [json|].
      * now rewrite responseHandler_no_running_version by exact V.
      * exact P.
  - destruct (inFlight w); [discriminate|]. intros [= <-].
    destruct (errorResponseHandler_rearms (answered w)) as (_ & T & _).
    rewrite T. apply Forall_app. split; [assumption|]. repeat constructor; lia.
Qed.

(** From page load on, every armed timer waits between 0 and 60000
    ms. *)
Theorem check_loop_never_waits_over_a_minute (es : list event) (w w' : world) :
  timers w = [] ->
  run es (snd (main w)) = Some w' ->
  forall d, In d (timers w') -> 0 <= d <= 60000.
Proof.
  intros T R.
  assert (P : prompt (snd (main w))).
  { destruct (main_arms_clamped w) as (d & Hd & E). unfold prompt.
    rewrite E, T. repeat constructor; lia. }
  revert R P. generalize (snd (main w)). clear.
  induction es as [|e es IH]; intros w R P; cbn in R.
  - injection R as <-. now apply Forall_forall.
  - destruct (step e w) as [w1|] eqn:S; [|discriminate].
    eapply IH; [eassumption|]. eapply step_prompt; eassumption.
Qed.

Lemma check_loop_never_waits_over_a_minute_witness :
  exists w',
    run [TimerFired; Failed] (snd (main (boot 0 Config.empty [] None))) = Some w' /\
    forall d, In d (timers w') -> 0 <= d <= 60000.
Proof.
  eexists. split; [vm_compute; reflexivity|].
  apply (check_loop_never_waits_over_a_minute [TimerFired; Failed]
           (boot 0 Config.empty [] None)); [reflexivity|].
  vm_compute. reflexivity.
Defined.


(** *** Resuming after a reload *)

(** What [scheduleFirmwareUpdateCheck] persists is what the next page
    load resumes from: with the write done at time [t] for a delay [d],
    a page loaded at [t'] waits [clamp(t + d - t', 0, 60000)], which is
    the rest of the original delay when the planned check lies at most
    a minute ahead. *)
Theorem scheduled_check_resumes_after_reload (d : Z) (w w2 : world) :
  let t := clock w (ticks w) in
  let t' := clock w2 (ticks w2) in
  setOk w (sets w) = true ->
  config w2 = config (snd (scheduleFirmwareUpdateCheck d w)) ->
  fst (initialDelay w2) = Ok (clamp (t + d - t') 0 60000) /\
  (t' <= t + d <= t' + 60000 -> fst (initialDelay w2) = Ok (t + d - t')).
Proof.
  intros t t' Hok Hc.
  destruct (scheduleFirmwareUpdateCheck_effects d w) as (_ & _ & _ & _ & N).
  rewrite Hok in N. rewrite <- Hc in N.
  assert (E : fst (initialDelay w2) = Ok (clamp (t + d - t') 0 60000)).
  { unfold initialDelay, bind, config_get, Date_now, ret, CHECK_INTERVAL.
    rewrite N. reflexivity. }
  split; [assumption|]. intros R. rewrite E. f_equal. unfold clamp. lia.
Qed.

Lemma scheduled_check_resumes_after_reload_witness :
  fst (initialDelay
         (boot 11000
            (config (snd (scheduleFirmwareUpdateCheck 30000
                            (boot 1000 Config.empty [] None))))
            [] None)) = Ok 20000.
Proof.
  pose proof (scheduled_check_resumes_after_reload 30000
                (boot 1000 Config.empty [] None)
                (boot 11000
                   (config (snd (scheduleFirmwareUpdateCheck 30000
                                   (boot 1000 Config.empty [] None))))
                   [] None)) as H.
  cbv zeta in H. destruct (H eq_refl eq_refl) as [_ R].
  apply R. cbn. lia.
Defined.


(** *** The error listener *)

(** The [error] listener never throws: it logs its warning, asks the
    configuration to store [nextCheck] ten seconds ahead, and arms one
    timer of 10000 ms, whether or not that write succeeds. *)
Theorem errorResponseHandler_warns_and_rearms (w : world) :
  let w' := snd (errorResponseHandler w) in
  let ok := setOk w (sets w) in
  fst (errorResponseHandler w) = Ok tt /\
  timers w' = (timers w ++ [10000])%list /\
  trace w' =
    (trace w ++
     [ConsoleWarn "Error occurred attempting to download the firmware.";
      ConsoleLog "Scheduling firmware check in 10000ms";
      ConfigSetNextCheck (clock w (ticks w) + 10000) ok] ++
     (if ok then [] else [ConsoleWarn "Unable to set nextCheck in configuration"]) ++
     [SetTimeout 10000])%list.
Proof.
  cbv zeta. unfold errorResponseHandler, bind, console_warn.
  destruct (scheduleFirmwareUpdateCheck_effects 10000
              (emit (ConsoleWarn "Error occurred attempting to download the firmware.") w))
    as (E & Tr & T & _).
  destruct (scheduleFirmwareUpdateCheck 10000 _) as [r w'] eqn:S.
  cbn [fst snd] in *. subst r. repeat split; [assumption|].
  rewrite Tr. cbn. rewrite <- app_assoc. reflexivity.
Qed.

(** *** The stand-in bridge *)

(** Against the stand-in bridge, whatever the configuration holds,
    [latestVersion()] is 4.4.6 and [startUpdater()] asks for
    [v4.4.6.hex] and [v4.4.6.eeprom]. *)
Theorem mock_bridge_offers_only_446 (lrfv : option string) :
  latestVersion mockFirmwareFiles lrfv = Ok (Some v446) /\
  forall w, firmwareFiles w = mockFirmwareFiles ->
            Config.latestRemoteFirmwareVersion (config w) = lrfv ->
            startUpdater w =
              (Ok tt, emit (FirmwareUpdate (Some v446) "v4.4.6.hex" "v4.4.6.eeprom") w).
Proof.
  assert (L : localVersionList mockFirmwareFiles = Ok [v446]) by reflexivity.
  assert (E : latestVersion mockFirmwareFiles lrfv = Ok (Some v446)).
  { unfold latestVersion. rewrite (latestVersionWith_unfold _ _ _ _ L).
    cbn [reduce rbind fold_left existsb].
    destruct (Version.fromString lrfv) as [r|]; [|reflexivity].
    destruct (Version.eq v446 (Some r)) eqn:Q; [|reflexivity].
    apply Version_eq_iff in Q. now subst r. }
  split; [assumption|]. intros w F C.
  unfold startUpdater, bind, listFirmwareFiles, config_get, lift, firmwareUpdate.
  rewrite F, C, E. reflexivity.
Qed.

(* ================================================================== *)
(** ** The robot list *)

Module StorageFacts.

Import Storage.





(** *** Sorting by [rorder] *)

Lemma insertByRorder_perm r l : Permutation (insertByRorder r l) (r :: l).
Proof.
  induction l as [|x l IH]; cbn; [reflexivity|].
  destruct (rorder r <=? rorder x); [reflexivity|].
  rewrite IH. apply perm_swap.
Qed.

Lemma orderByRorder_perm t : Permutation (orderByRorder t) t.
Proof.
  induction t as [|r t IH]; cbn; [reflexivity|].
  rewrite insertByRorder_perm. now constructor.
Qed.







(** *** changePosition *)





Lemma threeRobots_ordered : ordered threeRobots.
Proof.
  unfold ordered. cbn. repeat split;
    try (repeat constructor; cbn; intuition lia);
    destruct H as [<- | [<- | [<- | []]]]; cbn; lia.
Qed.




(** *** updateOrder *)











(** *** add, remove, getAll *)

Lemma fold_max_upper l : forall m x, In x l -> x <= fold_right Z.max m l.
Proof.
  induction l as [|y l IH]; intros m x H; [destruct H|]. cbn.
  destruct H as [-> | H]; [lia|]. specialize (IH m x H). lia.
Qed.

Lemma fold_max_below l : forall m b,
  m < b -> (forall x, In x l -> x < b) -> fold_right Z.max m l < b.
Proof.
  induction l as [|y l IH]; intros m b Hm H; [exact Hm|]. cbn.
  assert (y < b) by (apply H; now left).
  assert (fold_right Z.max m l < b) by (apply IH; [assumption | intros x Hx; apply H; now right]).
  lia.
Qed.

Lemma fold_max_lower l : forall m, m <= fold_right Z.max m l.
Proof. induction l as [|y l IH]; intros m; cbn; [lia|]. specialize (IH m). lia. Qed.

(** On a list whose positions are exactly [0 .. n-1], and while every
    id the table has or ever had is below [maxRowid], [add] with a new
    name appends the robot at position [n] under an id above all
    others, reports success, and the positions are exactly [0 .. n].
    With a name the table has, or once the id [maxRowid] was given
    out, it changes nothing and reports failure. *)
Theorem add_appends_at_the_end (n : string) (s : Z) (callback : bool) (db : Db) :
  ordered db ->
  ((forall r, In r (robots db) -> name r <> n) ->
   lastId db < maxRowid -> (forall r, In r (robots db) -> id r < maxRowid) ->
   exists i,
     (forall r, In r (robots db) -> id r < i) /\ lastId db < i <= maxRowid /\
     add n s callback db =
       ({| robots := robots db ++
                     [{| id := i; name := n; status := s;
                         rorder := Z.of_nat (List.length (robots db)) |}];
           lastId := i |},
        call callback [Done true]) /\
     ordered (fst (add n s callback db))) /\
  ((exists r, In r (robots db) /\ name r = n) ->
   add n s callback db = (db, call callback [Done false])) /\
  (maxRowid <= lastId db \/ (exists r, In r (robots db) /\ maxRowid <= id r) ->
   add n s callback db = (db, call callback [Done false])).
Proof.
  intros (Ni & No & Rg). unfold add, sqlInsert. cbv zeta. split; [|split].
  - intros Fresh Hl Hids.
    replace (existsb (fun r => String.eqb (name r) n) (robots db)) with false.
    2:{ symmetry. apply not_true_is_false. intros H.
        apply existsb_exists in H as (r & Hr & E). apply String.eqb_eq in E.
        now apply (Fresh r). }
    assert (Hm : fold_right Z.max (lastId db) (map id (robots db)) < maxRowid).
    { apply fold_max_below; [assumption|]. intros x Hx.
      apply in_map_iff in Hx as (r & <- & Hr). now apply Hids. }
    replace (maxRowid <=? fold_right Z.max (lastId db) (map id (robots db))) with false
      by (symmetry; apply Z.leb_gt; exact Hm).
    set (i := fold_right Z.max (lastId db) (map id (robots db)) + 1).
    assert (Hi : forall r, In r (robots db) -> id r < i).
    { intros r Hr. pose proof (fold_max_upper (map id (robots db)) (lastId db) (id r)
                                 (in_map id _ _ Hr)). subst i. lia. }
    assert (Hl' : lastId db < i <= maxRowid).
    { pose proof (fold_max_lower (map id (robots db)) (lastId db)). subst i. lia. }
    exists i. split; [assumption|]. split; [assumption|]. split; [reflexivity|].
    unfold ordered. cbn [fst robots]. rewrite !map_app, length_app. cbn.
    repeat split.
    + apply NoDup_app; [assumption | repeat constructor; intros [] |].
      intros a Ha [<- | []]. apply in_map_iff in Ha as (r & E & Hr).
      specialize (Hi r Hr). lia.
    + apply NoDup_app; [assumption | repeat constructor; intros [] |].
      intros a Ha [<- | []]. apply in_map_iff in Ha as (r & E & Hr).
      specialize (Rg r Hr). lia.
    + apply in_app_iff in H as [H | [<- | []]]; [apply Rg in H; lia | cbn; lia].
    + apply in_app_iff in H as [H | [<- | []]]; [apply Rg in H; lia | cbn; lia].
  - intros (r & Hr & E).
    replace (existsb (fun r => String.eqb (name r) n) (robots db)) with true;
      [reflexivity|].
    symmetry. apply existsb_exists. exists r. split; [assumption|].
    now apply String.eqb_eq.
  - intros Full.
    assert (Hm : maxRowid <= fold_right Z.max (lastId db) (map id (robots db))).
    { destruct Full as [Hl | (r & Hr & Hid)].
      - pose proof (fold_max_lower (map id (robots db)) (lastId db)). lia.
      - pose proof (fold_max_upper (map id (robots db)) (lastId db) (id r)
                      (in_map id _ _ Hr)). lia. }
    apply Z.leb_le in Hm. rewrite Hm.
    now destruct (existsb _ (robots db)).
Qed.

Lemma add_appends_at_the_end_witness :
  (exists i,
     (forall r, In r (robots threeRobots) -> id r < i) /\ lastId threeRobots < i <= maxRowid /\
     add "d" 0 true threeRobots =
       ({| robots := robots threeRobots ++
                     [{| id := i; name := "d"; status := 0;
                         rorder := Z.of_nat (List.length (robots threeRobots)) |}];
           lastId := i |},
        call true [Done true]) /\
     ordered (fst (add "d" 0 true threeRobots))) /\
  add "b" 0 true threeRobots = (threeRobots, call true [Done false]) /\
  add "d" 0 true {| robots := []; lastId := maxRowid |} =
    ({| robots := []; lastId := maxRowid |}, call true [Done false]).
Proof.
  destruct (add_appends_at_the_end "d" 0 true threeRobots threeRobots_ordered)
    as [Fresh _].
  destruct (add_appends_at_the_end "b" 0 true threeRobots threeRobots_ordered)
    as [_ [Taken _]].
  destruct (add_appends_at_the_end "d" 0 true {| robots := []; lastId := maxRowid |})
    as [_ [_ Full]].
  { repeat split; [constructor | constructor | destruct H | destruct H]. }
  split; [|split].
  - apply Fresh.
    + intros r [<- | [<- | [<- | []]]]; discriminate.
    + reflexivity.
    + intros r [<- | [<- | [<- | []]]]; reflexivity.
  - apply Taken. exists {| id := 2; name := "b"; status := 0; rorder := 1 |}.
    split; [cbn; auto | reflexivity].
  - apply Full. left. cbn. lia.
Defined.






Lemma filter_shorter {A} (p : A -> bool) l x :
  In x l -> p x = false -> (List.length (filter p l) < List.length l)%nat.
Proof.
  induction l as [|y l IH]; intros H Px; [destruct H|]. cbn.
  pose proof (filter_length_le p l) as Le.
  destruct H as [-> | H].
  - rewrite Px. lia.
  - specialize (IH H Px). destruct (p y); cbn; lia.
Qed.

(** [remove] does not renumber: when it deletes a robot and the robot
    at the last position [n-1] stays, that robot keeps its position,
    which is then out of range. *)
Theorem remove_leaves_a_gap (n : string) (callback : bool) (db : Db) (r r' : Robot) :
  In r (robots db) -> name r = n ->
  In r' (robots db) -> name r' <> n ->
  rorder r' = Z.of_nat (List.length (robots db)) - 1 ->
  In r' (robots (fst (remove n callback db))) /\
  ~ ordered (fst (remove n callback db)).
Proof.
  intros Hr En Hr' En' Last. cbn [remove fst robots]. unfold sqlDelete.
  assert (K : In r' (filter (fun x => negb (String.eqb (name x) n)) (robots db))).
  { apply filter_In. split; [assumption|]. apply negb_true_iff.
    now apply String.eqb_neq. }
  split; [assumption|]. intros (_ & _ & Rg). specialize (Rg r' K). cbn [robots] in Rg.
  assert (S : (List.length (filter (fun x => negb (String.eqb (name x) n)) (robots db))
               < List.length (robots db))%nat).
  { apply (filter_shorter _ _ r); [assumption|]. apply negb_false_iff.
    now apply String.eqb_eq. }
  lia.
Qed.

Lemma remove_leaves_a_gap_witness :
  In {| id := 3; name := "c"; status := 0; rorder := 2 |}
     (robots (fst (remove "a" true threeRobots))) /\
  ~ ordered (fst (remove "a" true threeRobots)).
Proof.
  apply (remove_leaves_a_gap "a" true threeRobots
           {| id := 1; name := "a"; status := 0; rorder := 0 |}
           {| id := 3; name := "c"; status := 0; rorder := 2 |});
    cbn; auto; discriminate.
Defined.


(** [changePosition] calls back once when the [UPDATE]s are queued and
    once more for each robot between the two positions; with equal
    positions it does nothing and never calls back. *)
Theorem changePosition_calls_back_per_robot (cur new : Z) (callback : bool) (db : Db) :
  (cur = new -> changePosition cur new callback db = (db, [])) /\
  (cur <> new ->
   snd (changePosition cur new callback db) =
     call callback
       (Done true ::
        repeat Updated
          (List.length
             (filter (fun r => (Z.min cur new <=? rorder r) && (rorder r <=? Z.max cur new))
                     (robots db))))).
Proof.
  unfold changePosition. split.
  - intros ->. now rewrite Z.eqb_refl.
  - intros Hne. destruct (Z.eqb_spec cur new) as [E | _]; [contradiction|].
    cbn [snd]. f_equal. f_equal. rewrite map_map.
    assert (R : forall (l : list Robot), map (fun _ => Updated) l =
                                         repeat Updated (List.length l)).
    { induction l; cbn; congruence. }
    rewrite R. f_equal. unfold sqlBetween.
    rewrite (Permutation_length (orderByRorder_perm _)).
    destruct (Z.gtb_spec cur new).
    + now rewrite Z.min_r, Z.max_l by lia.
    + now rewrite Z.min_l, Z.max_r by lia.
Qed.

End StorageFacts.
